(** * pandas-ta: numeric helpers of [pandas_ta/utils/_core.py] and the
      [hl2] indicator of [pandas_ta/overlap/hl2.py]

    A shallow embedding of the helpers and of the part of Python, numpy and
    pandas they run on, followed by the properties of the specification.

    Conventions of the embedding.
    - A Python [float] and a float64 cell of a Series is a primitive
      binary64 float ([PrimFloat.float]); the undefined value of a float
      Series is [nan].  Python's [int] is [Z]; an int64 cell is a [Z] kept in
      range by [wrap64].
    - A Series carries a default positional index (0, 1, 2, ...), so two
      Series are aligned when they have the same length; on different
      lengths pandas aligns on the union of the indices and leaves the
      unmatched positions undefined.
    - A Python call that may raise returns a [result]; a function whose
      body has no raising operation is a plain function.
    - A [str] is an ASCII string.  Console output ([print], [verbose]) is
      not part of the embedding. *)

From Stdlib Require Import String Ascii ZArith List Bool Lia Floats Sorted.
Import ListNotations.
Open Scope Z_scope.
#[local] Set Warnings "-inexact-float".

(** ** Python results and exceptions *)

Inductive exn : Set :=
| TypeError
| ValueError
| IndexError
| OverflowError
| AttributeError
| KeyError.

Inductive result (A : Type) : Type :=
| Ok (a : A)
| Raise (e : exn).

Arguments Ok {A} a.
Arguments Raise {A} e.

Definition bind {A B : Type} (r : result A) (k : A -> result B) : result B :=
  match r with
  | Ok a => k a
  | Raise e => Raise e
  end.

Notation "x <- r ;; k" := (bind r (fun x => k))
  (at level 61, r at next level, right associativity).

(** ** float64 and int64 cells *)

Module Cell.

(** [sys.float_info.epsilon], 2^-52. *)
Definition epsilon : float := 0x1p-52%float.

(** Conversion of an integer to the nearest float64 (ties to even), as
    numpy does when an int64 array is cast to float64 and as Python's
    [float(int)] does while the value is in range. *)
Definition of_Z (z : Z) : float :=
  SF2Prim (binary_normalize prec emax z 0 false).

(** Two's complement wrap-around of int64 arithmetic. *)
Definition wrap64 (z : Z) : Z :=
  (z + 2 ^ 63) mod 2 ^ 64 - 2 ^ 63.

(** Truncation of a finite float toward zero ([int(x)], [astype(int)]);
    [None] on nan and on the infinities. *)
Definition trunc (f : float) : option Z :=
  match Prim2SF f with
  | S754_zero _ => Some 0
  | S754_finite s m e =>
      let a := match e with
               | Zneg p => Z.shiftr (Zpos m) (Zpos p)
               | _ => Z.shiftl (Zpos m) e
               end in
      Some (if s then - a else a)
  | S754_infinity _ => None
  | S754_nan => None
  end.

End Cell.

(** ** Series: values with a default positional index, a name and the
    ad hoc [category] attribute the indicators attach *)

Inductive data : Type :=
| F64 (l : list float)
| I64 (l : list Z).

Record Series : Type := mkSeries {
  values : data;
  name : option string;
  category : option string
}.

(** The cells of a Series read as float64 ([astype(float)]). *)
Definition floats (d : data) : list float :=
  match d with
  | F64 l => l
  | I64 l => map Cell.of_Z l
  end.

Definition cells (s : Series) : list float := floats (values s).

Definition data_length (d : data) : nat :=
  match d with
  | F64 l => length l
  | I64 l => length l
  end.

(** [Series.size] *)
Definition size (s : Series) : Z := Z.of_nat (data_length (values s)).

(** Two Series with the default index are aligned when sizes agree. *)
Definition aligned (a b : Series) : Prop := size a = size b.

(** Positional shift by [k] places: forward for [k > 0], backward for
    [k < 0]; the vacated places receive [fill], the values pushed out are
    dropped. *)
Definition shift {A : Type} (fill : A) (k : Z) (l : list A) : list A :=
  let n := length l in
  if 0 <=? k
  then let j := Nat.min (Z.to_nat k) n in repeat fill j ++ firstn (n - j) l
  else let j := Nat.min (Z.to_nat (- k)) n in skipn j l ++ repeat fill j.

(** Elementwise operation of two float columns after alignment on the
    union of two default indices: positions present on one side only are
    undefined. *)
Definition align_with (f : float -> float -> float) (x y : list float)
  : list float :=
  map (fun p => f (fst p) (snd p)) (combine x y)
  ++ repeat nan (Nat.max (length x) (length y) - Nat.min (length x) (length y)).

(** Name of the result of a binary operation: kept when both operands
    agree on it. *)
Definition result_name (a b : Series) : option string :=
  match name a, name b with
  | Some x, Some y => if String.eqb x y then Some x else None
  | _, _ => None
  end.

(** [a (op) b] for two Series: int64 arithmetic (wrapping) when both are
    int64 and aligned, float64 arithmetic otherwise. *)
Definition binop (fi : Z -> Z -> Z) (ff : float -> float -> float)
  (a b : Series) : Series :=
  let v :=
    match values a, values b with
    | I64 x, I64 y =>
        if Nat.eqb (length x) (length y)
        then I64 (map (fun p => Cell.wrap64 (fi (fst p) (snd p))) (combine x y))
        else F64 (align_with ff (map Cell.of_Z x) (map Cell.of_Z y))
    | x, y => F64 (align_with ff (floats x) (floats y))
    end in
  mkSeries v (result_name a b) None.

Definition series_sub : Series -> Series -> Series := binop Z.sub PrimFloat.sub.
Definition series_add : Series -> Series -> Series := binop Z.add PrimFloat.add.

(** [c * s] for a Python float [c]: always a float64 Series. *)
Definition series_rmul (c : float) (s : Series) : Series :=
  mkSeries (F64 (map (fun x => (c * x)%float) (cells s))) (name s) None.

(** [s += c] for a Python float [c]: the Series becomes float64 and keeps
    its identity (name and attributes). *)
Definition series_iadd (s : Series) (c : float) : Series :=
  mkSeries (F64 (map (fun x => (x + c)%float) (cells s))) (name s) (category s).

(** [s.eq(0).any()] *)
Definition eq0_any (s : Series) : bool :=
  match values s with
  | F64 l => existsb (fun x => (x =? 0)%float) l
  | I64 l => existsb (fun z => z =? 0) l
  end.

(** A number of steps pandas accepts: a platform integer (64 bits). *)
Definition ssize_ok (k : Z) : bool :=
  (- 2 ^ 63 <=? k) && (k <? 2 ^ 63).

(** [s.shift(k)]: a copy for [k = 0]; otherwise a float64 Series, the
    vacated places undefined. *)
Definition series_shift (k : Z) (s : Series) : result Series :=
  if k =? 0 then Ok (mkSeries (values s) (name s) None)
  else if ssize_ok k
       then Ok (mkSeries (F64 (shift nan k (cells s))) (name s) None)
       else Raise OverflowError.

(** [s.diff(k)]: cell [i] minus cell [i - k], undefined where [i - k] is
    not a position.  On int64 the subtraction is done on int64 and the
    result is stored as float64. *)
Definition diff_cells (k : Z) (d : data) : list float :=
  match d with
  | F64 l =>
      map (fun p => (fst p - snd p)%float) (combine l (shift nan k l))
  | I64 l =>
      map (fun p => match snd p with
                    | Some b => Cell.of_Z (Cell.wrap64 (fst p - b))
                    | None => nan
                    end)
          (combine l (shift None k (map Some l)))
  end.

Definition series_diff (k : Z) (s : Series) : result Series :=
  if ssize_ok k
  then Ok (mkSeries (F64 (diff_cells k (values s))) (name s) None)
  else Raise OverflowError.

(** [col[mask] = v] where the mask is [p] applied to the cells. *)
Definition mask_set (p : float -> bool) (v : float) (l : list float)
  : list float :=
  map (fun c => if p c then v else c) l.

(** [col.fillna(v)] *)
Definition fillna (v : float) (l : list float) : list float :=
  map (fun c => if is_nan c then v else c) l.

(** [col.astype(int)] of float64 cells: pandas refuses nan and the
    infinities; a finite value outside int64 converts to the minimum, as
    the processor's conversion does. *)
Fixpoint astype_int (l : list float) : result (list Z) :=
  match l with
  | [] => Ok []
  | c :: t =>
      match Cell.trunc c with
      | Some z =>
          r <- astype_int t ;;
          Ok ((if (- 2 ^ 63 <=? z) && (z <? 2 ^ 63) then z else - 2 ^ 63) :: r)
      | None => Raise ValueError
      end
  end.

(** ** Python values reaching the helpers as arguments *)

Inductive value : Type :=
| VNone
| VBool (b : bool)
| VInt (z : Z)
| VFloat (f : float)
| VStr (s : string)
| VList (l : list float)
| VSeries (s : Series).

(** [isinstance(x, int)]; [bool] is a subclass of [int]. *)
Definition is_int (x : value) : bool :=
  match x with
  | VInt _ | VBool _ => true
  | _ => false
  end.

Definition is_str (x : value) : bool :=
  match x with
  | VStr _ => true
  | _ => false
  end.

Definition is_none (x : value) : bool :=
  match x with
  | VNone => true
  | _ => false
  end.

(** The integer an [int] instance stands for (0 on anything else, where
    it is never asked). *)
Definition int_value (x : value) : Z :=
  match x with
  | VInt z => z
  | VBool b => Z.b2z b
  | _ => 0
  end.

(** ** Python's [int(x)] *)

Module PyInt.

(** Whitespace stripped by [int] from an ASCII string. *)
Definition is_space (c : ascii) : bool :=
  let n := nat_of_ascii c in
  ((9 <=? n) && (n <=? 13) || (28 <=? n) && (n <=? 32))%nat.

Definition digit_of (c : ascii) : option Z :=
  let n := nat_of_ascii c in
  if ((48 <=? n) && (n <=? 57))%nat then Some (Z.of_nat (n - 48)) else None.

Fixpoint lstrip (l : list ascii) : list ascii :=
  match l with
  | c :: t => if is_space c then lstrip t else l
  | [] => []
  end.

Definition strip (l : list ascii) : list ascii :=
  rev (lstrip (rev (lstrip l))).

(** Decimal digits, single underscores allowed between two digits. *)
Fixpoint digits (acc : Z) (after_digit : bool) (l : list ascii) : option Z :=
  match l with
  | [] => if after_digit then Some acc else None
  | c :: t =>
      match digit_of c with
      | Some d => digits (10 * acc + d) true t
      | None =>
          if Ascii.eqb c "_" && after_digit then digits acc false t else None
      end
  end.

(** [int(s)] for an ASCII string [s], base 10. *)
Definition of_str (s : string) : result Z :=
  let l := strip (list_ascii_of_string s) in
  let '(neg, body) :=
    match l with
    | c :: t =>
        if Ascii.eqb c "-" then (true, t)
        else if Ascii.eqb c "+" then (false, t)
        else (false, l)
    | [] => (false, l)
    end in
  match digits 0 false body with
  | Some z => Ok (if neg then - z else z)
  | None => Raise ValueError
  end.

(** [int(f)] for a float: truncation toward zero. *)
Definition of_float (f : float) : result Z :=
  match Cell.trunc f with
  | Some z => Ok z
  | None => if is_nan f then Raise ValueError else Raise OverflowError
  end.

End PyInt.

(** [int(x)].  A Series converts when it holds exactly one cell. *)
Definition py_int (x : value) : result Z :=
  match x with
  | VNone => Raise TypeError
  | VBool b => Ok (Z.b2z b)
  | VInt z => Ok z
  | VFloat f => PyInt.of_float f
  | VStr s => PyInt.of_str s
  | VList _ => Raise TypeError
  | VSeries s =>
      match values s with
      | F64 [c] => PyInt.of_float c
      | I64 [z] => Ok z
      | _ => Raise TypeError
      end
  end.

(** ** [pandas_ta/utils/_core.py] *)

(** [get_drift]: an int if not zero, otherwise one. *)
Definition get_drift (x : value) : Z :=
  if is_int x && negb (int_value x =? 0) then int_value x else 1.

(** [get_offset]: an int, otherwise zero. *)
Definition get_offset (x : value) : Z :=
  if is_int x then int_value x else 0.

(** [non_zero_range] *)
Definition non_zero_range (high low : Series) : Series :=
  let diff := series_sub high low in
  if eq0_any diff then series_iadd diff Cell.epsilon else diff.

(** numpy's [argmax] on a float64 array: the first position holding the
    maximum, a nan counting as maximal. *)
Fixpoint argmax_scan (l : list float) (i : nat) (mp : float) (ind : nat) : nat :=
  match l with
  | [] => ind
  | x :: t =>
      if negb (x <=? mp)%float
      then if is_nan x then i else argmax_scan t (S i) x i
      else argmax_scan t (S i) mp ind
  end.

Definition argmax (l : list float) : result Z :=
  match l with
  | [] => Raise ValueError
  | mp :: t => Ok (Z.of_nat (if is_nan mp then O else argmax_scan t 1 mp 0))
  end.

(** numpy's [argmin], likewise. *)
Fixpoint argmin_scan (l : list float) (i : nat) (mp : float) (ind : nat) : nat :=
  match l with
  | [] => ind
  | x :: t =>
      if negb (mp <=? x)%float
      then if is_nan x then i else argmin_scan t (S i) x i
      else argmin_scan t (S i) mp ind
  end.

Definition argmin (l : list float) : result Z :=
  match l with
  | [] => Raise ValueError
  | mp :: t => Ok (Z.of_nat (if is_nan mp then O else argmin_scan t 1 mp 0))
  end.

(** [recent_maximum_index]: [int(argmax(x[::-1]))] *)
Definition recent_maximum_index (x : list float) : result Z :=
  argmax (rev x).

(** [recent_minimum_index]: [int(argmin(x[::-1]))] *)
Definition recent_minimum_index (x : list float) : result Z :=
  argmin (rev x).

(** [verify_series]: the Series itself, or [None] for Python's [None]
    (also returned by falling off the end of the function). *)
Definition verify_series (series min_length : value) : option Series :=
  let has_length := negb (is_none min_length) && is_int min_length in
  match series with
  | VSeries s =>
      if has_length && (size s <? int_value min_length) then None else Some s
  | _ => None
  end.

(** A number given as [initial] to [signed_series]. *)
Inductive num : Type :=
| NInt (z : Z)
| NFloat (f : float).

(** The float64 stored for a Python value assigned into a float64
    column; [None] is stored as nan. *)
Definition cell_of (v : option num) : result float :=
  match v with
  | None => Ok nan
  | Some (NFloat f) => Ok f
  | Some (NInt z) =>
      let f := Cell.of_Z z in
      if (abs f =? infinity)%float then Raise OverflowError else Ok f
  end.

(** [col.iloc[0] = v] *)
Definition iloc0_set (v : option num) (l : list float) : result (list float) :=
  match l with
  | [] => Raise IndexError
  | _ :: t => c <- cell_of v ;; Ok (c :: t)
  end.

(** [signed_series] *)
Definition signed_series (series : value) (initial : option num) (lag : value)
  : result Series :=
  let initial :=
    match initial with
    | Some v => if negb (is_str lag) then Some v else None
    | None => None
    end in
  let lag := if negb (is_none lag) && is_int lag then int_value lag else 1 in
  match verify_series series VNone with
  | None => Raise AttributeError
  | Some series =>
      sign <- series_diff lag series ;;
      let sign := mask_set (fun c => (0 <? c)%float) 1%float (cells sign) in
      let sign := mask_set (fun c => (c <? 0)%float) (-1)%float sign in
      sign <- iloc0_set initial sign ;;
      Ok (mkSeries (F64 sign) (name series) None)
  end.

(** [unsigned_differences]; [asint] is the truth value of the keyword
    argument of that name. *)
Definition unsigned_differences (series : Series) (amount : value)
  (asint : bool) : result (Series * Series) :=
  amount <- (if negb (is_none amount) then py_int amount else Ok 1) ;;
  negative <- series_diff amount series ;;
  let negative := fillna 0%float (cells negative) in
  let positive := negative in
  let positive := mask_set (fun c => (c <=? 0)%float) 0%float positive in
  let positive := mask_set (fun c => (0 <? c)%float) 1%float positive in
  let negative := mask_set (fun c => (0 <=? c)%float) 0%float negative in
  let negative := mask_set (fun c => (c <? 0)%float) 1%float negative in
  if asint
  then
    p <- astype_int positive ;;
    n <- astype_int negative ;;
    Ok (mkSeries (I64 p) (name series) None, mkSeries (I64 n) (name series) None)
  else
    Ok (mkSeries (F64 positive) (name series) None,
        mkSeries (F64 negative) (name series) None).

(** ** [pandas_ta/overlap/hl2.py] *)

(** [high + low] on what [verify_series] returned: adding with [None]
    raises [TypeError]. *)
Definition add_verified (high low : option Series) : result Series :=
  match high, low with
  | Some h, Some l => Ok (series_add h l)
  | _, _ => Raise TypeError
  end.

(** [hl2] *)
Definition hl2 (high low offset : value) : result Series :=
  let high := verify_series high VNone in
  let low := verify_series low VNone in
  let offset := get_offset offset in
  s <- add_verified high low ;;
  let hl2 := series_rmul 0.5%float s in
  hl2 <- (if negb (offset =? 0) then series_shift offset hl2 else Ok hl2) ;;
  Ok (mkSeries (values hl2) (Some "HL2"%string) (Some "overlap"%string)).

(** ** Python's [round(x, ndigits)] on a float *)

Module PyRound.

Definition half_even (n d : Z) : Z :=
  let q := n / d in
  let r2 := 2 * (n mod d) in
  if r2 <? d then q
  else if d <? r2 then q + 1
  else if Z.even q then q else q + 1.

(** The float64 nearest to [n / d] (ties to even), signed by [neg]; for
    [0 <= n] and [0 < d]. *)
Definition of_ratio (neg : bool) (n d : Z) : float :=
  if n =? 0 then (if neg then (-0)%float else 0%float)
  else
    let k := Z.max 0 (56 + Z.log2 d - Z.log2 n) in
    let q := (n * 2 ^ k) / d in
    let sticky := if (n * 2 ^ k) mod d =? 0 then 0 else 1 in
    let m := 2 * q + sticky in
    SF2Prim (binary_normalize prec emax (if neg then - m else m) (- k - 1) false).

(** [round(x, nd)]: [x] rounded to [nd] decimal places, halves to even on
    the exact value of [x], the result correctly rounded to float64. *)
Definition round (x : float) (nd : Z) : result float :=
  match Prim2SF x with
  | S754_finite s m e =>
      if 323 <? nd then Ok x
      else if nd <? -308 then Ok (0 * x)%float
      else
        let n := Zpos m * 2 ^ Z.max e 0 * 10 ^ Z.max nd 0 in
        let d := 2 ^ Z.max (- e) 0 * 10 ^ Z.max (- nd) 0 in
        let q := half_even n d in
        let r := of_ratio s (q * 10 ^ Z.max (- nd) 0) (10 ^ Z.max nd 0) in
        if (abs r =? infinity)%float then Raise OverflowError else Ok r
  | _ => Ok x
  end.

(** [round(x)]: the nearest integer, halves to even, as an [int]. *)
Definition to_int (x : float) : result Z :=
  match Prim2SF x with
  | S754_zero _ => Ok 0
  | S754_finite s m e =>
      let q := half_even (Zpos m * 2 ^ Z.max e 0) (2 ^ Z.max (- e) 0) in
      Ok (if s then - q else q)
  | S754_infinity _ => Raise OverflowError
  | S754_nan => Raise ValueError
  end.

End PyRound.

(** [round(x, p)] for whatever [p] is passed: [p] must be an int or
    [None]; with [None] the result is an int, kept here at its float64
    value. *)
Definition py_round (x : float) (p : value) : result float :=
  match p with
  | VNone => z <- PyRound.to_int x ;; Ok (Cell.of_Z z)
  | VInt z => PyRound.round x z
  | VBool b => PyRound.round x (Z.b2z b)
  | _ => Raise TypeError
  end.

(** ** [performance] *)

(** A row of the timing table: the indicator's name (the index), the
    seconds and the milliseconds. *)
Record row : Type := mkRow {
  Indicator : string;
  secs : float;
  ms : float
}.

(** One column of [total_timedf]: rows min, 50%, mean, max and total. *)
Record stats : Type := mkStats {
  st_min : float;
  st_median : float;
  st_mean : float;
  st_max : float;
  st_total : float
}.

(** [total_timedf]: the statistics of the columns secs and ms. *)
Record summary : Type := mkSummary {
  sum_secs : stats;
  sum_ms : stats
}.

(** What [performance] returns. *)
Inductive report : Type :=
| RNone
| RTable (tdf : list row)
| RTableStats (tdf : list row) (total_timedf : summary)
| RStyled (tdf : list row) (total_timedf : summary).

(** [x if isinstance(x, bool) and x else False] *)
Definition true_flag (x : value) : bool :=
  match x with
  | VBool b => b
  | _ => false
  end.

(** [int(top) if isinstance(top, int) and top > 0 else None] *)
Definition get_top (top : value) : option Z :=
  if is_int top && (0 <? int_value top) then Some (int_value top) else None.

(** The names [performance] asks the registry to leave out: [_ex]. *)
Definition exclusions (excluded : option (list string)) : list string :=
  let _ex := ["above"; "above_value"; "below"; "below_value"; "cross";
              "cross_value"; "ichimoku"]%string in
  match excluded with
  | Some (e :: l) => _ex ++ e :: l
  | _ => _ex
  end.

Section Performance.

(** The dataset and pandas, as [performance] uses them:
    - [ta_indicators ex]: [df.ta.indicators(as_list=True, exclude=ex)];
    - [timed_ms i talib]: the milliseconds read from the text that
      [df.ta(i, talib=talib, timed=True)] reports, or the exception of
      the call or of reading the number;
    - [describe col]: the rows min, 50%, mean and max of
      [DataFrame.describe()] for a column, and [col_sum col] its sum;
    - [sort_values by ascending]: [DataFrame.sort_values]. *)
Variable ta_indicators : list string -> list string.
Variable timed_ms : string -> bool -> result float.
Variable describe : list float -> float * float * float * float.
Variable col_sum : list float -> float.
Variable sort_values : string -> bool -> list row -> result (list row).

Definition ms2secs (ms : float) (p : value) : result float :=
  py_round (0.001 * ms)%float p.

Fixpoint indicator_time (talib : bool) (group : list string) (p : value)
  : result (list row) :=
  match group with
  | [] => Ok []
  | i :: rest =>
      ms <- timed_ms i talib ;;
      s <- ms2secs ms p ;;
      times <- indicator_time talib rest p ;;
      Ok (mkRow i s ms :: times)
  end.

Definition column_stats (col : list float) : stats :=
  let '(mn, md, mean, mx) := describe col in
  mkStats mn md mean mx (col_sum col).

(** [tdf.describe().loc[['min', '50%', 'mean', 'max']]] with the row
    [total] of [tdf.sum(axis=0)] *)
Definition time_stats (tdf : list row) : summary :=
  mkSummary (column_stats (map secs tdf)) (column_stats (map ms tdf)).

Definition performance (df_empty : bool) (excluded : option (list string))
  (top talib : value) (ascending : bool) (sortby : string)
  (gradient places stats : value) : result report :=
  if df_empty then Ok RNone
  else
    let talib := true_flag talib in
    let top := get_top top in
    let stats := true_flag stats in
    let indicators := ta_indicators (exclusions excluded) in
    if Nat.eqb (length indicators) 0 then Ok RNone
    else
      data <- indicator_time talib indicators places ;;
      tdf <- sort_values sortby ascending data ;;
      let total_timedf := time_stats tdf in
      let tdf := match top with
                 | Some top => firstn (Z.to_nat top) tdf
                 | None => tdf
                 end in
      if true_flag gradient then Ok (RStyled tdf total_timedf)
      else if stats then Ok (RTableStats tdf total_timedf)
      else Ok (RTable tdf).

End Performance.

(** ** A small dataset for [performance]

    Three indicators timed at 1, 2 and 3 milliseconds, with reference
    versions of the pandas operations: a stable sort, and statistics that
    sum from left to right (as pandas does on columns this short). *)

Module Bench.

Definition ta_indicators (exclude : list string) : list string :=
  filter (fun i => negb (existsb (String.eqb i) exclude))
         ["ema"; "rsi"; "sma"]%string.

Definition timed_ms (i : string) (talib : bool) : result float :=
  if String.eqb i "ema" then Ok 1%float
  else if String.eqb i "rsi" then Ok 2%float
  else Ok 3%float.

Fixpoint insert_sorted (x : float) (l : list float) : list float :=
  match l with
  | [] => [x]
  | y :: t => if (x <=? y)%float then x :: l else y :: insert_sorted x t
  end.

Definition sorted (l : list float) : list float :=
  fold_right insert_sorted [] l.

Definition col_sum (col : list float) : float :=
  fold_left PrimFloat.add col 0%float.

Definition describe (col : list float) : float * float * float * float :=
  let v := sorted col in
  let n := length v in
  let mean := (col_sum col / Cell.of_Z (Z.of_nat n))%float in
  let lo := nth ((n - 1) / 2) v nan in
  let hi := nth (n / 2) v nan in
  (nth 0 v nan, (lo + (hi - lo) * 0.5)%float, mean, nth (n - 1) v nan).

Fixpoint insert_row (key : row -> float) (ascending : bool) (x : row)
  (l : list row) : list row :=
  match l with
  | [] => [x]
  | y :: t =>
      if (if ascending then key x <=? key y else key y <=? key x)%float
      then x :: l
      else y :: insert_row key ascending x t
  end.

Definition sort_values (by_ : string) (ascending : bool) (tdf : list row)
  : result (list row) :=
  if String.eqb by_ "secs"
  then Ok (fold_right (insert_row secs ascending) [] tdf)
  else if String.eqb by_ "ms"
  then Ok (fold_right (insert_row ms ascending) [] tdf)
  else Raise KeyError.

(** [performance(df, top=top, places=places, stats=True)] on this
    dataset. *)
Definition run (top places : value) : result report :=
  performance ta_indicators timed_ms describe col_sum sort_values
    false None top (VBool false) false "secs" (VBool false) places (VBool true).

Definition time_stats : list row -> summary :=
  time_stats describe col_sum.

End Bench.

(** ** Notions used to state the properties *)

(** The [k]-step difference at position [i]: cell [i] minus cell [i - k],
    undefined when [i - k] is not a position. *)
Definition lag_diff (k : Z) (d : data) (i : nat) : float :=
  let j := Z.of_nat i - k in
  let defined := (0 <=? j) && (j <? Z.of_nat (data_length d)) in
  match d with
  | F64 l =>
      if defined then (nth i l nan - nth (Z.to_nat j) l nan)%float else nan
  | I64 l =>
      if defined
      then Cell.of_Z (Cell.wrap64 (nth i l 0 - nth (Z.to_nat j) l 0))
      else nan
  end.

(** Cell [i] of [a (op) b] for aligned Series, read as float64. *)
Definition binop_at (fi : Z -> Z -> Z) (ff : float -> float -> float)
  (a b : Series) (i : nat) : float :=
  match values a, values b with
  | I64 x, I64 y => Cell.of_Z (Cell.wrap64 (fi (nth i x 0) (nth i y 0)))
  | x, y => ff (nth i (floats x) nan) (nth i (floats y) nan)
  end.

(** Position [i] of [s] holds a value that is exactly zero ([== 0]). *)
Definition zero_at (s : Series) (i : nat) : Prop :=
  match values s with
  | F64 l => exists d, nth_error l i = Some d /\ (d =? 0)%float = true
  | I64 l => nth_error l i = Some 0
  end.


(** The number of steps [signed_series] differences over: [lag] when it
    is an int, 1 otherwise. *)
Definition lag_steps (lag : value) : Z :=
  match lag with
  | VInt z => z
  | VBool b => Z.b2z b
  | _ => 1
  end.

(** The two assignments of [signed_series] at one cell. *)
Definition sign_cell (d : float) : float :=
  let d1 := if (0 <? d)%float then 1%float else d in
  if (d1 <? 0)%float then (-1)%float else d1.

(** The docstring example of [signed_series]. *)
Definition signed_example : Series :=
  mkSeries (I64 [3; 2; 2; 1; 1; 5; 6; 6; 7; 5]) None None.

(** The cells [unsigned_differences] computes from one difference [d]:
    [fillna(0)] followed by the two assignments of each column. *)
Definition positive_cell (d : float) : float :=
  let d := if is_nan d then 0%float else d in
  let p := if (d <=? 0)%float then 0%float else d in
  if (0 <? p)%float then 1%float else p.

Definition negative_cell (d : float) : float :=
  let d := if is_nan d then 0%float else d in
  let n := if (0 <=? d)%float then 0%float else d in
  if (n <? 0)%float then 1%float else n.

(** A 0/1 column, as float64 or, after [astype(int)], as int64. *)
Definition mask_data (asint : bool) (l : list bool) : data :=
  if asint then I64 (map Z.b2z l)
  else F64 (map (fun b : bool => if b then 1%float else 0%float) l).

(** Every cell is 0 or 1. *)
Definition is_mask (d : data) : Prop :=
  match d with
  | F64 l => Forall (fun c => c = 0%float \/ c = 1%float) l
  | I64 l => Forall (fun z => z = 0 \/ z = 1) l
  end.

(** The docstring example of [unsigned_differences]. *)
Definition unsigned_example : Series :=
  mkSeries (I64 [3; 2; 2; 1; 1; 5; 6; 6; 7; 5; 3]) None None.

(** The scan of numpy's [argmax] and [argmin] over any comparison
    [le x mp], read as: [x] does not beat the best value [mp] so far. *)
Fixpoint scan (le : float -> float -> bool) (l : list float) (i : nat)
  (mp : float) (ind : nat) : nat :=
  match l with
  | [] => ind
  | x :: t =>
      if negb (le x mp)
      then if is_nan x then i else scan le t (S i) x i
      else scan le t (S i) mp ind
  end.

(** [r] is the first position of [l] holding a best value for [le]:
    nothing beats it, and it beats everything before it. *)
Definition first_best (le : float -> float -> bool) (l : list float) (r : nat)
  : Prop :=
  (r < length l)%nat
  /\ (forall j, (j < length l)%nat -> le (nth j l nan) (nth r l nan) = true)
  /\ (forall j, (j < r)%nat -> le (nth r l nan) (nth j l nan) = false).

(** A float64 in its IEEE 754 reading is a number, not nan. *)
Definition sf_num (x : spec_float) : bool :=
  match x with
  | S754_nan => false
  | _ => true
  end.

(** A window without undefined values. *)
Definition numeric (l : list float) : Prop :=
  Forall (fun v => is_nan v = false) l.

(** The table and the summary a report carries. *)
Definition report_table (r : report) : option (list row) :=
  match r with
  | RNone => None
  | RTable tdf => Some tdf
  | RTableStats tdf _ => Some tdf
  | RStyled tdf _ => Some tdf
  end.

Definition report_stats (r : report) : option summary :=
  match r with
  | RTableStats _ total_timedf => Some total_timedf
  | RStyled _ total_timedf => Some total_timedf
  | _ => None
  end.

(** ** Strings: [camelCase2Title] and [tal_ma]

    Strings hold ASCII characters, as the names these helpers are called
    on do. *)

Module Str.

Definition is_lower (c : ascii) : bool :=
  let n := nat_of_ascii c in ((97 <=? n) && (n <=? 122))%nat.

Definition is_upper (c : ascii) : bool :=
  let n := nat_of_ascii c in ((65 <=? n) && (n <=? 90))%nat.

Definition to_upper (c : ascii) : ascii :=
  if is_lower c then ascii_of_nat (nat_of_ascii c - 32) else c.

Definition to_lower (c : ascii) : ascii :=
  if is_upper c then ascii_of_nat (nat_of_ascii c + 32) else c.

(** [re.sub("([a-z])([A-Z])", "\g<1> \g<2>", x)]: a space between every
    lowercase letter and the uppercase letter that follows it.  A match
    ends on an uppercase letter, which cannot start the next one, so the
    scan may resume on it. *)
Fixpoint split_camel (l : list ascii) : list ascii :=
  match l with
  | a :: t =>
      match t with
      | b :: _ =>
          if is_lower a && is_upper b
          then a :: " "%char :: split_camel t
          else a :: split_camel t
      | [] => l
      end
  | [] => []
  end.

(** [str.title()]: a letter that follows a letter is lowercased, any
    other letter is uppercased. *)
Fixpoint title_from (previous_is_cased : bool) (l : list ascii) : list ascii :=
  match l with
  | [] => []
  | c :: t =>
      if is_lower c
      then (if previous_is_cased then c else to_upper c) :: title_from true t
      else if is_upper c
      then (if previous_is_cased then to_lower c else c) :: title_from true t
      else c :: title_from false t
  end.

Definition title (l : list ascii) : list ascii := title_from false l.

(** [str.lower()] *)
Definition lower (s : string) : string :=
  string_of_list_ascii (map to_lower (list_ascii_of_string s)).

(** [str.upper()] *)
Definition upper (s : string) : string :=
  string_of_list_ascii (map to_upper (list_ascii_of_string s)).

End Str.

(** [camelCase2Title] *)
Definition camelCase2Title (x : string) : string :=
  string_of_list_ascii (Str.title (Str.split_camel (list_ascii_of_string x))).

(** [tal_ma]; [talib] is the truth value of [Imports["talib"]], and the
    members of TA Lib's [MA_Type] are the integers the source lists. *)
Definition tal_ma (talib : bool) (name : value) : Z :=
  match name with
  | VStr s =>
      if talib && (1 <? Z.of_nat (String.length s))
      then
        let name := Str.lower s in
        if String.eqb name "sma" then 0
        else if String.eqb name "ema" then 1
        else if String.eqb name "wma" then 2
        else if String.eqb name "dema" then 3
        else if String.eqb name "tema" then 4
        else if String.eqb name "trima" then 5
        else if String.eqb name "kama" then 6
        else if String.eqb name "mama" then 7
        else if String.eqb name "t3" then 8
        else 0
      else 0
  | _ => 0
  end.

(** No lowercase letter is directly followed by an uppercase one. *)
Fixpoint no_camel (l : list ascii) : Prop :=
  match l with
  | a :: t =>
      match t with
      | b :: _ => (Str.is_lower a && Str.is_upper b = false) /\ no_camel t
      | [] => True
      end
  | [] => True
  end.

(** ** [is_datetime_ordered] *)

(** What a call of [is_datetime_ordered] does: it returns a bool, or its
    [finally] clause reads [ordered] while no value is bound to it. *)
Inductive ordered_outcome : Type :=
| Returns (b : bool)
| UnboundLocalError.

Section DatetimeOrdered.

(** The entries of [df.index] and their [<], which may raise. *)
Variable E : Type.
Variable lt : E -> E -> result bool.

(** [df.index[0] < df.index[-1]] *)
Definition first_lt_last (index : list E) : result bool :=
  match index with
  | [] => Raise IndexError
  | a :: _ => lt a (last index a)
  end.

(** [is_datetime_ordered]; [index_is_datetime] is
    [is_datetime64_any_dtype(df.index)].  The [return] of the [finally]
    clause discards whatever the [try] block raised. *)
Definition is_datetime_ordered (index_is_datetime : bool) (index : list E)
  : ordered_outcome :=
  match first_lt_last index with
  | Ok ordered => Returns (index_is_datetime && ordered)
  | Raise _ => if index_is_datetime then UnboundLocalError else Returns false
  end.

End DatetimeOrdered.

Arguments first_lt_last {E} lt index.
Arguments is_datetime_ordered {E} lt index_is_datetime index.

(** [<] on datetime64 stamps (nanoseconds); [None] is NaT, which compares
    false with everything. *)
Definition stamp_lt (a b : option Z) : result bool :=
  match a, b with
  | Some x, Some y => Ok (x <? y)
  | _, _ => Ok false
  end.

(** ** [is_percent] *)

(** [is_percent]: [bool] is a subclass of [int]. *)
Definition is_percent (x : value) : bool :=
  match x with
  | VBool b => (0 <=? Z.b2z b) && (Z.b2z b <=? 100)
  | VInt z => (0 <=? z) && (z <=? 100)
  | VFloat f => (0 <=? f)%float && (f <=? 100)%float
  | _ => false
  end.

(** ** Notions used to state further properties *)

(** A float64 in its IEEE 754 reading is finite and not zero, or an
    infinity. *)
Definition sf_away_from_zero (x : spec_float) : bool :=
  match x with
  | S754_finite _ _ _ => true
  | S754_infinity _ => true
  | _ => false
  end.

(** ** A DataFrame too short for its indicators

    With too few rows an indicator returns [None], and reading [.timed]
    of [None] raises [AttributeError]. *)

Module ShortFrame.

Definition timed_ms (i : string) (talib : bool) : result float :=
  Raise AttributeError.

End ShortFrame.

(** * Properties *)

(** ** The embedding at work *)

Example of_Z_examples :
  Cell.of_Z 3 = 3%float /\ Cell.of_Z (-2) = (-2)%float
  /\ Cell.of_Z (2 ^ 53 + 1) = 0x1p53%float.
Proof. repeat split; reflexivity. Qed.

Example trunc_examples :
  Cell.trunc 2.5%float = Some 2 /\ Cell.trunc (-2.5)%float = Some (-2)
  /\ Cell.trunc nan = None /\ Cell.trunc infinity = None.
Proof. vm_compute. repeat split; reflexivity. Qed.

Example shift_examples :
  shift 0 2 [1; 2; 3; 4] = [0; 0; 1; 2]
  /\ shift 0 (-1) [1; 2; 3; 4] = [2; 3; 4; 0]
  /\ shift 0 7 [1; 2; 3] = [0; 0; 0]
  /\ shift 0 (-7) [1; 2; 3] = [0; 0; 0].
Proof. repeat split; reflexivity. Qed.

Example int_of_str_examples :
  PyInt.of_str " -1_000 " = Ok (-1000)
  /\ PyInt.of_str "+007" = Ok 7
  /\ PyInt.of_str "abc" = Raise ValueError
  /\ PyInt.of_str "1__0" = Raise ValueError
  /\ PyInt.of_str "1_" = Raise ValueError
  /\ PyInt.of_str "- 1" = Raise ValueError
  /\ PyInt.of_str "" = Raise ValueError.
Proof. vm_compute. repeat split; reflexivity. Qed.

Example round_examples :
  PyRound.round 2.675%float 2 = Ok 2.67%float
  /\ PyRound.round 2.5%float 0 = Ok 2%float
  /\ PyRound.round 1.5%float 0 = Ok 2%float
  /\ PyRound.round 0.125%float 2 = Ok 0.12%float
  /\ PyRound.round 1234.5678%float (-2) = Ok 1200%float
  /\ PyRound.round (-0.4)%float 0 = Ok (-0)%float
  /\ PyRound.round (0.001 * 3)%float 5 = Ok 0.003%float
  /\ PyRound.round 1.7e308%float (-308) = Raise OverflowError
  /\ PyRound.to_int 2.5%float = Ok 2
  /\ PyRound.to_int (-3.5)%float = Ok (-4).
Proof. vm_compute. repeat split; reflexivity. Qed.

Example non_zero_range_examples :
  non_zero_range (mkSeries (F64 [3; 2.5]%float) None None)
                 (mkSeries (F64 [1; 2]%float) None None)
  = mkSeries (F64 [2; 0.5]%float) None None
  /\ non_zero_range (mkSeries (F64 [3; 2]%float) None None)
                    (mkSeries (F64 [1; 2]%float) None None)
     = mkSeries (F64 [2 + Cell.epsilon; Cell.epsilon]%float) None None
  /\ non_zero_range (mkSeries (I64 [3; 2]) None None)
                    (mkSeries (I64 [1; 2]) None None)
     = mkSeries (F64 [2; Cell.epsilon]%float) None None.
Proof. vm_compute. repeat split; reflexivity. Qed.

Example hl2_examples :
  hl2 (VSeries (mkSeries (F64 [3; 2; 4]%float) None None))
      (VSeries (mkSeries (I64 [1; 1; 1]) None None)) (VInt 1)
  = Ok (mkSeries (F64 [nan; 2; 1.5]%float) (Some "HL2"%string)
          (Some "overlap"%string))
  /\ hl2 (VSeries (mkSeries (F64 [3; 2; 4]%float) None None))
         (VSeries (mkSeries (F64 [1; 1; 1]%float) None None)) (VFloat 1.5)
     = Ok (mkSeries (F64 [2; 1.5; 2.5]%float) (Some "HL2"%string)
             (Some "overlap"%string))
  /\ hl2 (VSeries (mkSeries (F64 [3; 2; 4]%float) None None))
         (VSeries (mkSeries (F64 [1; 1; 1]%float) None None)) (VInt (-1))
     = Ok (mkSeries (F64 [1.5; 2.5; nan]%float) (Some "HL2"%string)
             (Some "overlap"%string)).
Proof. vm_compute. repeat split; reflexivity. Qed.

Example recent_index_examples :
  recent_maximum_index [1; 3; 2; 3; 0]%float = Ok 1
  /\ recent_minimum_index [0; 3; 0; 3; 1]%float = Ok 2
  /\ recent_maximum_index [1; nan; 5]%float = Ok 1
  /\ recent_maximum_index [] = Raise ValueError.
Proof. vm_compute. repeat split; reflexivity. Qed.

(** ** Order of float64 values *)

Module FloatOrder.

Lemma is_nan_spec x : is_nan x = true <-> Prim2SF x = S754_nan.
Proof.
  unfold is_nan. rewrite eqb_spec. unfold SFeqb.
  split.
  - destruct (Prim2SF x) as [s|s| |s m e] eqn:E; simpl; try reflexivity.
    + discriminate.
    + destruct s; discriminate.
    + destruct s; rewrite Z.compare_refl, Pos.compare_cont_refl; simpl; discriminate.
  - intros ->. reflexivity.
Qed.

Lemma not_nan_num x : is_nan x = false -> sf_num (Prim2SF x) = true.
Proof.
  intros H. destruct (Prim2SF x) eqn:E; try reflexivity.
  apply is_nan_spec in E. congruence.
Qed.

Ltac by_signs :=
  repeat match goal with
         | s : bool |- _ => destruct s
         end; simpl; congruence.

Lemma SFleb_total x y :
  sf_num x = true -> sf_num y = true -> SFleb x y = false -> SFltb y x = true.
Proof.
  unfold SFleb, SFltb, SFcompare.
  destruct x as [sx|sx| |sx mx ex], y as [sy|sy| |sy my ey]; simpl;
    try discriminate; intros _ _; try by_signs.
  change (Pos.compare_cont Eq mx my) with (Pos.compare mx my).
  change (Pos.compare_cont Eq my mx) with (Pos.compare my mx).
  rewrite (Z.compare_antisym ex ey), (Pos.compare_antisym mx my).
  destruct sx, sy; simpl; try congruence;
    destruct (ex ?= ey); simpl; try congruence;
    destruct (mx ?= my)%positive; simpl; congruence.
Qed.

Lemma SFltb_not_leb x y : SFltb x y = true -> SFleb y x = false.
Proof.
  unfold SFleb, SFltb, SFcompare.
  destruct x as [sx|sx| |sx mx ex], y as [sy|sy| |sy my ey]; simpl;
    try discriminate; try by_signs.
  change (Pos.compare_cont Eq mx my) with (Pos.compare mx my).
  change (Pos.compare_cont Eq my mx) with (Pos.compare my mx).
  rewrite (Z.compare_antisym ex ey), (Pos.compare_antisym mx my).
  destruct sx, sy; simpl; try congruence;
    destruct (ex ?= ey); simpl; try congruence;
    destruct (mx ?= my)%positive; simpl; congruence.
Qed.

Lemma SFleb_trans x y z :
  SFleb x y = true -> SFleb y z = true -> SFleb x z = true.
Proof.
  unfold SFleb, SFcompare.
  destruct x as [sx|sx| |sx mx ex], y as [sy|sy| |sy my ey],
           z as [sz|sz| |sz mz ez];
    simpl; try discriminate; try reflexivity; try by_signs.
  change (Pos.compare_cont Eq mx my) with (Pos.compare mx my).
  change (Pos.compare_cont Eq my mz) with (Pos.compare my mz).
  change (Pos.compare_cont Eq mx mz) with (Pos.compare mx mz).
  destruct sx, sy, sz; simpl; try congruence;
    destruct (Z.compare_spec ex ey), (Z.compare_spec ey ez),
             (Z.compare_spec ex ez);
    simpl; try congruence; try lia;
    destruct (Pos.compare_spec mx my), (Pos.compare_spec my mz),
             (Pos.compare_spec mx mz);
    simpl; try congruence; lia.
Qed.

(** On values that are not nan, [<=?] is a total preorder and [<?] its
    strict part. *)
Lemma leb_total a b :
  is_nan a = false -> is_nan b = false ->
  (a <=? b)%float = false -> (b <? a)%float = true.
Proof.
  intros Ha Hb. rewrite leb_spec, ltb_spec.
  apply SFleb_total; now apply not_nan_num.
Qed.

Lemma ltb_not_leb a b : (a <? b)%float = true -> (b <=? a)%float = false.
Proof. rewrite leb_spec, ltb_spec. apply SFltb_not_leb. Qed.

Lemma ltb_leb a b : (a <? b)%float = true -> (a <=? b)%float = true.
Proof.
  rewrite leb_spec, ltb_spec. unfold SFleb, SFltb.
  destruct (SFcompare _ _) as [[]|]; congruence.
Qed.

Lemma leb_trans a b c :
  (a <=? b)%float = true -> (b <=? c)%float = true -> (a <=? c)%float = true.
Proof. rewrite !leb_spec. apply SFleb_trans. Qed.

Lemma leb_total_le a b :
  is_nan a = false -> is_nan b = false ->
  (a <=? b)%float = false -> (b <=? a)%float = true.
Proof. intros Ha Hb H. now apply ltb_leb, leb_total. Qed.

Lemma ltb_asym a b : (a <? b)%float = true -> (b <? a)%float = false.
Proof.
  intros H. destruct (b <? a)%float eqn:E; [|reflexivity].
  apply ltb_not_leb in H. apply ltb_leb in E. congruence.
Qed.

Lemma nan_ltb_l a b : is_nan a = true -> (a <? b)%float = false.
Proof.
  intros H. apply is_nan_spec in H. rewrite ltb_spec. unfold SFltb. now rewrite H.
Qed.

Lemma nan_ltb_r a b : is_nan b = true -> (a <? b)%float = false.
Proof.
  intros H. apply is_nan_spec in H. rewrite ltb_spec. unfold SFltb, SFcompare.
  rewrite H. now destruct (Prim2SF a).
Qed.

Lemma eqb_ltb a b : (a =? b)%float = true -> (a <? b)%float = false /\ (b <? a)%float = false.
Proof.
  rewrite eqb_spec, !ltb_spec. unfold SFeqb, SFltb. intros H.
  destruct (SFcompare (Prim2SF a) (Prim2SF b)) as [[]|] eqn:E; try discriminate.
  split; [reflexivity|].
  destruct (SFcompare (Prim2SF b) (Prim2SF a)) as [[]|] eqn:E'; try reflexivity.
  assert (L : SFltb (Prim2SF b) (Prim2SF a) = true) by (unfold SFltb; now rewrite E').
  apply SFltb_not_leb in L. unfold SFleb in L. now rewrite E in L.
Qed.

Lemma sub_nan_r a : (a - nan)%float = nan.
Proof.
  apply Prim2SF_inj. rewrite sub_spec.
  change (Prim2SF nan) with S754_nan.
  unfold SF64sub, SFsub. now destruct (Prim2SF a).
Qed.

End FloatOrder.

(** ** Positional shift and differences *)

Lemma length_shift {A : Type} (fill : A) k l :
  length (shift fill k l) = length l.
Proof.
  unfold shift. destruct (0 <=? k);
    rewrite length_app, repeat_length;
    [rewrite length_firstn | rewrite length_skipn]; lia.
Qed.

Lemma nth_shift {A : Type} (fill : A) k l i :
  (i < length l)%nat ->
  nth i (shift fill k l) fill =
  let j := Z.of_nat i - k in
  if (0 <=? j) && (j <? Z.of_nat (length l))
  then nth (Z.to_nat j) l fill else fill.
Proof.
  intros Hi. cbv zeta. unfold shift.
  destruct (0 <=? k) eqn:Hk.
  - apply Z.leb_le in Hk.
    set (j0 := Nat.min (Z.to_nat k) (length l)).
    destruct (Nat.lt_ge_cases i j0) as [Hlt|Hge].
    + rewrite app_nth1 by (rewrite repeat_length; exact Hlt).
      rewrite nth_repeat.
      replace (0 <=? Z.of_nat i - k) with false; [reflexivity|].
      symmetry. apply Z.leb_gt. subst j0. lia.
    + rewrite app_nth2 by (rewrite repeat_length; exact Hge).
      rewrite repeat_length.
      assert (Hj0 : j0 = Z.to_nat k) by (subst j0; lia).
      rewrite nth_firstn.
      replace (i - j0 <? length l - j0)%nat with true
        by (symmetry; apply Nat.ltb_lt; lia).
      replace (0 <=? Z.of_nat i - k) with true by (symmetry; apply Z.leb_le; lia).
      replace (Z.of_nat i - k <? Z.of_nat (length l)) with true
        by (symmetry; apply Z.ltb_lt; lia).
      simpl. f_equal. lia.
  - apply Z.leb_gt in Hk.
    set (j0 := Nat.min (Z.to_nat (- k)) (length l)).
    replace (0 <=? Z.of_nat i - k) with true by (symmetry; apply Z.leb_le; lia).
    simpl.
    destruct (Nat.lt_ge_cases i (length l - j0)) as [Hlt|Hge].
    + rewrite app_nth1 by (rewrite length_skipn; exact Hlt).
      rewrite nth_skipn.
      assert (Hj0 : j0 = Z.to_nat (- k)) by (subst j0; lia).
      replace (Z.of_nat i - k <? Z.of_nat (length l)) with true
        by (symmetry; apply Z.ltb_lt; lia).
      f_equal. lia.
    + rewrite app_nth2 by (rewrite length_skipn; exact Hge).
      rewrite nth_repeat.
      replace (Z.of_nat i - k <? Z.of_nat (length l)) with false; [reflexivity|].
      symmetry. apply Z.ltb_ge. subst j0. lia.
Qed.

Lemma length_diff_cells k d : length (diff_cells k d) = data_length d.
Proof.
  destruct d as [l|l]; simpl;
    rewrite length_map, length_combine, length_shift, ?length_map; lia.
Qed.

Lemma nth_combine_lt {A B : Type} (x : list A) (y : list B) i da db :
  (i < length x)%nat -> (i < length y)%nat ->
  nth i (combine x y) (da, db) = (nth i x da, nth i y db).
Proof.
  revert y i. induction x as [|a x IH]; intros [|b y] [|i]; simpl; intros;
    try lia; try reflexivity.
  apply IH; lia.
Qed.

Lemma nth_map_combine {A B C : Type} (f : A * B -> C) (x : list A) (y : list B)
  (i : nat) (da : A) (db : B) (dc : C) :
  (i < length x)%nat -> (i < length y)%nat ->
  nth i (map f (combine x y)) dc = f (nth i x da, nth i y db).
Proof.
  intros Hx Hy.
  rewrite (nth_indep _ dc (f (da, db))) by (rewrite length_map, length_combine; lia).
  rewrite map_nth, nth_combine_lt by assumption. reflexivity.
Qed.

(** Cell [i] of [diff(k)] is the [k]-step difference at [i]. *)
Lemma nth_diff_cells k d i :
  (i < data_length d)%nat ->
  nth i (diff_cells k d) nan = lag_diff k d i.
Proof.
  intros Hi. destruct d as [l|l]; simpl in *.
  - rewrite (nth_map_combine _ _ _ _ nan nan) by (rewrite ?length_shift; lia).
    simpl. rewrite nth_shift by exact Hi. cbv zeta.
    destruct ((0 <=? Z.of_nat i - k) && (Z.of_nat i - k <? Z.of_nat (length l)));
      [reflexivity|].
    apply FloatOrder.sub_nan_r.
  - rewrite (nth_map_combine _ _ _ _ 0 None) by (rewrite ?length_shift, ?length_map; lia).
    simpl. rewrite nth_shift by (rewrite length_map; exact Hi). cbv zeta.
    rewrite length_map.
    destruct ((0 <=? Z.of_nat i - k) && (Z.of_nat i - k <? Z.of_nat (length l))) eqn:E;
      [|reflexivity].
    rewrite (nth_indep _ None (Some 0)) by (rewrite length_map; lia).
    rewrite map_nth. reflexivity.
Qed.

(** ** Elementwise arithmetic of aligned Series *)

Lemma length_align_with f x y :
  length x = length y -> length (align_with f x y) = length x.
Proof.
  intros H. unfold align_with.
  rewrite length_app, length_map, length_combine, repeat_length. lia.
Qed.

Lemma nth_align_with f x y i :
  length x = length y -> (i < length x)%nat ->
  nth i (align_with f x y) nan = f (nth i x nan) (nth i y nan).
Proof.
  intros H Hi. unfold align_with.
  rewrite app_nth1 by (rewrite length_map, length_combine; lia).
  rewrite (nth_map_combine _ _ _ _ nan nan) by lia. reflexivity.
Qed.

Lemma length_floats d : length (floats d) = data_length d.
Proof. destruct d; simpl; [reflexivity | apply length_map]. Qed.

Lemma aligned_lengths a b :
  aligned a b -> data_length (values a) = data_length (values b).
Proof. unfold aligned, size. lia. Qed.

Lemma length_binop fi ff a b :
  aligned a b -> length (cells (binop fi ff a b)) = length (cells a).
Proof.
  intros H. apply aligned_lengths in H. unfold cells, binop.
  destruct (values a) as [x|x], (values b) as [y|y]; simpl in *;
    try (rewrite length_align_with; rewrite ?length_map; auto; fail).
  rewrite H, Nat.eqb_refl. simpl.
  rewrite !length_map, length_combine. lia.
Qed.

Lemma nth_binop fi ff a b i :
  aligned a b -> (i < length (cells a))%nat ->
  nth i (cells (binop fi ff a b)) nan = binop_at fi ff a b i.
Proof.
  intros H Hi. apply aligned_lengths in H. unfold cells, binop, binop_at in *.
  destruct (values a) as [x|x], (values b) as [y|y]; simpl in *;
    try (rewrite nth_align_with; rewrite ?length_map in *; auto; fail).
  rewrite length_map in Hi.
  rewrite H, Nat.eqb_refl. simpl.
  rewrite (nth_indep _ nan (Cell.of_Z 0)) by (rewrite !length_map, length_combine; lia).
  rewrite map_nth.
  rewrite (nth_map_combine _ _ _ _ 0 0 0) by lia. reflexivity.
Qed.

(** ** non_zero_range *)

Lemma eq0_any_spec s : eq0_any s = true <-> exists i, zero_at s i.
Proof.
  unfold eq0_any, zero_at. destruct (values s) as [l|l]; rewrite existsb_exists.
  - split.
    + intros (d & Hin & Hd). apply In_nth_error in Hin as [i Hi]. eauto.
    + intros (i & d & Hi & Hd). apply nth_error_In in Hi. eauto.
  - split.
    + intros (z & Hin & Hz). apply Z.eqb_eq in Hz. subst z.
      apply In_nth_error in Hin as [i Hi]. eauto.
    + intros (i & Hi). apply nth_error_In in Hi. exists 0. split; [exact Hi | reflexivity].
Qed.

(** C1. [non_zero_range(high, low)] is the difference [high - low] itself
    when no element of the difference is exactly zero; when some element
    is, every element of the output is the element of the difference at
    that position plus machine epsilon.  For aligned Series the difference
    is the elementwise one. *)
Theorem non_zero_range_spec (high low : Series) :
  let diff := series_sub high low in
  ((forall i, ~ zero_at diff i) -> non_zero_range high low = diff)
  /\ ((exists i, zero_at diff i) ->
      length (cells (non_zero_range high low)) = length (cells diff)
      /\ forall i, (i < length (cells diff))%nat ->
           nth i (cells (non_zero_range high low)) nan
           = (nth i (cells diff) nan + Cell.epsilon)%float)
  /\ (aligned high low ->
      length (cells diff) = length (cells high)
      /\ forall i, (i < length (cells high))%nat ->
           nth i (cells diff) nan = binop_at Z.sub PrimFloat.sub high low i).
Proof.
  cbv zeta. unfold non_zero_range. split; [|split].
  - intros Hno. destruct (eq0_any (series_sub high low)) eqn:E; [|reflexivity].
    apply eq0_any_spec in E as [i Hi]. now apply Hno in Hi.
  - intros H. apply eq0_any_spec in H. rewrite H.
    change (cells (series_iadd (series_sub high low) Cell.epsilon))
      with (map (fun x => (x + Cell.epsilon)%float) (cells (series_sub high low))).
    split; [apply length_map|].
    intros i Hi.
    rewrite (nth_indep _ nan (nan + Cell.epsilon)%float) by (rewrite length_map; exact Hi).
    apply (map_nth (fun x => (x + Cell.epsilon)%float)).
  - intros Ha. split; [now apply length_binop|].
    intros i Hi. now apply nth_binop.
Qed.

(** A use of [non_zero_range_spec] on both of its cases: a difference
    without a zero, and one with a zero among its cells. *)
Lemma non_zero_range_spec_witness :
  non_zero_range (mkSeries (F64 [3; 2.5]%float) None None)
                 (mkSeries (F64 [1; 2]%float) None None)
  = mkSeries (F64 [2; 0.5]%float) None None
  /\ nth 0 (cells (non_zero_range (mkSeries (F64 [3; 2]%float) None None)
                                  (mkSeries (F64 [1; 2]%float) None None))) nan
     = (2 + Cell.epsilon)%float.
Proof.
  split.
  - apply (proj1 (non_zero_range_spec
                    (mkSeries (F64 [3; 2.5]%float) None None)
                    (mkSeries (F64 [1; 2]%float) None None))).
    intros [|[|i]] (d & Hd & Hz); simpl in Hd;
      try (injection Hd as <-; vm_compute in Hz; discriminate Hz).
    destruct i; discriminate Hd.
  - apply (proj2 (proj1 (proj2 (non_zero_range_spec
                    (mkSeries (F64 [3; 2]%float) None None)
                    (mkSeries (F64 [1; 2]%float) None None)))
                 (ex_intro _ 1%nat (ex_intro _ 0%float (conj eq_refl eq_refl))))
             0%nat).
    simpl. lia.
Defined.

(** ** verify_series *)

(** C4. [verify_series(x, min_length)] with an integer [min_length]
    returns the Series [x] itself exactly when [x] is a Series of at least
    [min_length] cells, and [None] in every other case; without
    [min_length] it returns [x] itself exactly when [x] is a Series.  The
    function is total: no input makes it raise. *)
Theorem verify_series_spec (x : value) (n : Z) :
  (forall s, verify_series x (VInt n) = Some s <-> x = VSeries s /\ n <= size s)
  /\ (verify_series x (VInt n) = None <->
      ~ exists s, x = VSeries s /\ n <= size s)
  /\ (forall s, verify_series x VNone = Some s <-> x = VSeries s)
  /\ (verify_series x VNone = None <-> ~ exists s, x = VSeries s).
Proof.
  unfold verify_series. simpl.
  destruct x as [| b | z | f | str | l | s0]; simpl;
    try (split; [intros s; split; [discriminate | intros [H _]; discriminate]|];
         split; [split; [intros _ (s & H & _); discriminate | reflexivity]|];
         split; [intros s; split; discriminate|];
         split; [intros _ (s & H); discriminate | reflexivity]).
  assert (Hx : forall s, VSeries s0 = VSeries s <-> s0 = s)
    by (intros s; split; congruence).
  split; [|split; [|split]].
  - intros s. rewrite Hx.
    destruct (Z.ltb_spec (size s0) n) as [Hlt|Hge]; split.
    + discriminate.
    + intros [<- Hn]. lia.
    + intros H. injection H as <-. split; [reflexivity | exact Hge].
    + intros [<- _]. reflexivity.
  - destruct (Z.ltb_spec (size s0) n) as [Hlt|Hge]; split.
    + intros _ (s & H & Hn). apply Hx in H. subst s. lia.
    + reflexivity.
    + discriminate.
    + intros H. exfalso. apply H. exists s0. split; [reflexivity | exact Hge].
  - intros s. rewrite Hx. split; congruence.
  - split; [discriminate|].
    intros H. exfalso. apply H. exists s0. reflexivity.
Qed.

(** ** hl2 *)

Lemma cells_series_rmul c s :
  cells (series_rmul c s) = map (fun x => (c * x)%float) (cells s).
Proof. reflexivity. Qed.

Lemma hl2_valid h l offset :
  ssize_ok (get_offset offset) = true ->
  hl2 (VSeries h) (VSeries l) offset =
  let m := series_rmul 0.5%float (series_add h l) in
  let k := get_offset offset in
  Ok (mkSeries (if k =? 0 then values m else F64 (shift nan k (cells m)))
        (Some "HL2"%string) (Some "overlap"%string)).
Proof.
  intros Hk. unfold hl2, verify_series, add_verified, series_shift. simpl.
  rewrite Hk. now destruct (get_offset offset =? 0).
Qed.







(** ** signed_series *)

Lemma sign_cell_cases d :
  ((0 <? d)%float = true -> sign_cell d = 1%float)
  /\ ((d <? 0)%float = true -> sign_cell d = (-1)%float)
  /\ ((d =? 0)%float = true -> sign_cell d = d)
  /\ (is_nan d = true -> sign_cell d = d).
Proof.
  unfold sign_cell. repeat split; intros H.
  - rewrite H. reflexivity.
  - rewrite (FloatOrder.ltb_asym _ _ H), H. reflexivity.
  - apply FloatOrder.eqb_ltb in H as [H1 H2]. now rewrite H2, H1.
  - now rewrite (FloatOrder.nan_ltb_r _ _ H), (FloatOrder.nan_ltb_l _ _ H).
Qed.

Lemma signed_series_valid s initial lag :
  ssize_ok (lag_steps lag) = true ->
  signed_series (VSeries s) initial lag =
  (sign <- iloc0_set (if is_str lag then None else initial)
             (map sign_cell (diff_cells (lag_steps lag) (values s))) ;;
   Ok (mkSeries (F64 sign) (name s) None)).
Proof.
  intros Hk. unfold signed_series, verify_series, series_diff, mask_set. simpl.
  replace (if negb (is_none lag) && is_int lag then int_value lag else 1)
    with (lag_steps lag) by (destruct lag; reflexivity).
  rewrite Hk. cbn [bind]. unfold cells. cbn [values floats].
  rewrite map_map.
  replace (match initial with
           | Some v => if negb (is_str lag) then Some v else None
           | None => None
           end)
    with (if is_str lag then None else initial)
    by (destruct initial, (is_str lag); reflexivity).
  reflexivity.
Qed.

(** C6. On a non-empty Series, [signed_series] returns a Series whose
    first cell is the initial value ([None], stored as nan, when no
    initial value is given or [lag] is a string) and whose cell at every
    later position is +1, -1 or the difference itself when the lag-step
    difference there is positive, negative or exactly zero (an undefined
    difference stays undefined).  The docstring example evaluates as
    documented. *)
Theorem signed_series_spec :
  (forall (s : Series) (initial : option num) (lag : value) (c : float),
      0 < size s ->
      ssize_ok (lag_steps lag) = true ->
      cell_of (if is_str lag then None else initial) = Ok c ->
      exists sign,
        signed_series (VSeries s) initial lag = Ok (mkSeries (F64 sign) (name s) None)
        /\ length sign = length (cells s)
        /\ nth 0 sign nan = c
        /\ (initial = None \/ is_str lag = true -> c = nan)
        /\ forall i, (0 < i < length (cells s))%nat ->
             let d := lag_diff (lag_steps lag) (values s) i in
             ((0 <? d)%float = true -> nth i sign nan = 1%float)
             /\ ((d <? 0)%float = true -> nth i sign nan = (-1)%float)
             /\ ((d =? 0)%float = true -> nth i sign nan = d)
             /\ (is_nan d = true -> nth i sign nan = d))
  /\ signed_series (VSeries signed_example) None VNone
     = Ok (mkSeries (F64 [nan; -1; 0; -1; 0; 1; 1; 0; 1; -1]%float) None None)
  /\ signed_series (VSeries signed_example) None (VInt 1)
     = Ok (mkSeries (F64 [nan; -1; 0; -1; 0; 1; 1; 0; 1; -1]%float) None None).
Proof.
  split; [|split; vm_compute; reflexivity].
  intros s initial lag c Hs Hk Hc.
  rewrite signed_series_valid by exact Hk.
  pose proof (length_diff_cells (lag_steps lag) (values s)) as Hlen.
  pose proof (fun i => nth_diff_cells (lag_steps lag) (values s) i) as Hnth.
  assert (Hn : (0 < data_length (values s))%nat) by (unfold size in Hs; lia).
  unfold cells. rewrite length_floats.
  destruct (diff_cells (lag_steps lag) (values s)) as [|d0 ds] eqn:Ed;
    simpl in Hlen; [lia|].
  simpl. rewrite Hc. simpl.
  eexists. split; [reflexivity|].
  split; [simpl; rewrite length_map; exact Hlen|].
  split; [reflexivity|].
  split.
  { intros [-> | Hl].
    - destruct (is_str lag); simpl in Hc; congruence.
    - rewrite Hl in Hc. simpl in Hc. congruence. }
  intros [|i] Hi; [lia|]. cbv zeta.
  rewrite <- Hnth by lia. simpl.
  rewrite (nth_indep (map sign_cell ds) nan (sign_cell nan)) by (rewrite length_map; lia).
  rewrite map_nth.
  apply sign_cell_cases.
Qed.

(** A use of [signed_series_spec]: a float64 Series, an initial value and
    a lag of two steps. *)
Lemma signed_series_spec_witness :
  exists sign,
    signed_series (VSeries (mkSeries (F64 [1; 5; 3; 3]%float) None None))
      (Some (NInt 7)) (VInt 2)
    = Ok (mkSeries (F64 sign) None None)
    /\ nth 0 sign nan = 7%float.
Proof.
  destruct (proj1 signed_series_spec
              (mkSeries (F64 [1; 5; 3; 3]%float) None None)
              (Some (NInt 7)) (VInt 2) 7%float)
    as (sign & H & _ & H0 & _).
  - reflexivity.
  - reflexivity.
  - reflexivity.
  - exists sign. split; [exact H | exact H0].
Defined.

(** ** unsigned_differences *)

Lemma positive_cell_spec d :
  positive_cell d = if (0 <? d)%float then 1%float else 0%float.
Proof.
  unfold positive_cell. destruct (is_nan d) eqn:En.
  - rewrite (FloatOrder.nan_ltb_r _ _ En). reflexivity.
  - destruct (d <=? 0)%float eqn:El.
    + destruct (0 <? d)%float eqn:Eg; [|reflexivity].
      apply FloatOrder.ltb_not_leb in Eg. congruence.
    + rewrite (FloatOrder.leb_total d 0 En eq_refl El). reflexivity.
Qed.

Lemma negative_cell_spec d :
  negative_cell d = if (d <? 0)%float then 1%float else 0%float.
Proof.
  unfold negative_cell. destruct (is_nan d) eqn:En.
  - rewrite (FloatOrder.nan_ltb_l _ _ En). reflexivity.
  - destruct (0 <=? d)%float eqn:El.
    + destruct (d <? 0)%float eqn:Eg; [|reflexivity].
      apply FloatOrder.ltb_not_leb in Eg. congruence.
    + rewrite (FloatOrder.leb_total 0 d eq_refl En El). reflexivity.
Qed.

Lemma astype_int_mask (l : list bool) :
  astype_int (map (fun b : bool => if b then 1%float else 0%float) l)
  = Ok (map Z.b2z l).
Proof.
  induction l as [|b l IH]; [reflexivity|].
  cbn [map astype_int]. rewrite IH. destruct b; reflexivity.
Qed.

Lemma positive_column d :
  mask_set (fun c => (0 <? c)%float) 1%float
    (mask_set (fun c => (c <=? 0)%float) 0%float (fillna 0%float d))
  = map (fun b : bool => if b then 1%float else 0%float)
      (map (fun c => (0 <? c)%float) d).
Proof.
  unfold mask_set, fillna. rewrite !map_map. apply map_ext.
  exact positive_cell_spec.
Qed.

Lemma negative_column d :
  mask_set (fun c => (c <? 0)%float) 1%float
    (mask_set (fun c => (0 <=? c)%float) 0%float (fillna 0%float d))
  = map (fun b : bool => if b then 1%float else 0%float)
      (map (fun c => (c <? 0)%float) d).
Proof.
  unfold mask_set, fillna. rewrite !map_map. apply map_ext.
  exact negative_cell_spec.
Qed.

(** What [unsigned_differences] returns once [amount] has been read as
    [k] steps. *)
Lemma unsigned_differences_run series amount asint k :
  (if negb (is_none amount) then py_int amount else Ok 1) = Ok k ->
  ssize_ok k = true ->
  unsigned_differences series amount asint =
  let d := diff_cells k (values series) in
  Ok (mkSeries (mask_data asint (map (fun c => (0 <? c)%float) d)) (name series) None,
      mkSeries (mask_data asint (map (fun c => (c <? 0)%float) d)) (name series) None).
Proof.
  intros Hk Hs. unfold unsigned_differences, series_diff.
  rewrite Hk. cbn [bind]. rewrite Hs. cbn [bind]. cbv zeta.
  change (cells (mkSeries (F64 (diff_cells k (values series))) (name series) None))
    with (diff_cells k (values series)).
  rewrite positive_column, negative_column. unfold mask_data.
  destruct asint; [|reflexivity].
  rewrite !astype_int_mask. reflexivity.
Qed.

Lemma nth_mask_cells asint (f : float -> bool) (d : list float) i :
  (i < length d)%nat ->
  nth i (floats (mask_data asint (map f d))) nan
  = if f (nth i d nan) then 1%float else 0%float.
Proof.
  intros Hi. unfold mask_data. destruct asint; simpl.
  - rewrite !map_map.
    rewrite (nth_indep _ nan (Cell.of_Z (Z.b2z (f nan)))) by (rewrite length_map; exact Hi).
    rewrite (map_nth (fun x => Cell.of_Z (Z.b2z (f x)))).
    destruct (f (nth i d nan)); reflexivity.
  - rewrite map_map.
    rewrite (nth_indep _ nan (if f nan then 1%float else 0%float))
      by (rewrite length_map; exact Hi).
    apply (map_nth (fun x => if f x then 1%float else 0%float)).
Qed.

Lemma length_mask_cells asint (f : float -> bool) (d : list float) :
  length (floats (mask_data asint (map f d))) = length d.
Proof. unfold mask_data. destruct asint; simpl; now rewrite !length_map. Qed.

Lemma is_mask_mask_data asint l : is_mask (mask_data asint l).
Proof.
  unfold mask_data, is_mask. destruct asint; apply Forall_forall;
    intros x Hx; apply in_map_iff in Hx as ([] & <- & _); auto.
Qed.

(** C7. Once [amount] is read as [k] steps, [unsigned_differences]
    returns two Series of the length of the input with, at every position,
    positive = 1 if the [k]-step difference there is > 0 and 0 otherwise,
    negative = 1 if it is < 0 and 0 otherwise; an undefined difference
    gives 0 in both.  The docstring example evaluates as documented. *)
Theorem unsigned_differences_spec :
  (forall (series : Series) (amount : value) (asint : bool) (k : Z),
      (if negb (is_none amount) then py_int amount else Ok 1) = Ok k ->
      ssize_ok k = true ->
      exists positive negative,
        unsigned_differences series amount asint = Ok (positive, negative)
        /\ length (cells positive) = length (cells series)
        /\ length (cells negative) = length (cells series)
        /\ forall i, (i < length (cells series))%nat ->
             let d := lag_diff k (values series) i in
             nth i (cells positive) nan
             = (if (0 <? d)%float then 1%float else 0%float)
             /\ nth i (cells negative) nan
                = (if (d <? 0)%float then 1%float else 0%float)
             /\ (is_nan d = true ->
                 nth i (cells positive) nan = 0%float
                 /\ nth i (cells negative) nan = 0%float))
  /\ unsigned_differences unsigned_example VNone false
     = Ok (mkSeries (F64 [0; 0; 0; 0; 0; 1; 1; 0; 1; 0; 0]%float) None None,
           mkSeries (F64 [0; 1; 0; 1; 0; 0; 0; 0; 0; 1; 1]%float) None None)
  /\ unsigned_differences unsigned_example VNone true
     = Ok (mkSeries (I64 [0; 0; 0; 0; 0; 1; 1; 0; 1; 0; 0]) None None,
           mkSeries (I64 [0; 1; 0; 1; 0; 0; 0; 0; 0; 1; 1]) None None).
Proof.
  split; [|split; vm_compute; reflexivity].
  intros series amount asint k Hk Hs.
  rewrite (unsigned_differences_run _ _ _ _ Hk Hs). cbv zeta.
  pose proof (length_diff_cells k (values series)) as Hlen.
  do 2 eexists. split; [reflexivity|].
  unfold cells. simpl. rewrite !length_mask_cells, length_floats.
  split; [exact Hlen|]. split; [exact Hlen|].
  intros i Hi.
  rewrite !nth_mask_cells by lia. rewrite nth_diff_cells by exact Hi.
  split; [reflexivity|]. split; [reflexivity|].
  intros Hnan.
  now rewrite (FloatOrder.nan_ltb_r _ _ Hnan), (FloatOrder.nan_ltb_l _ _ Hnan).
Qed.

(** A use of [unsigned_differences_spec]: two steps, read from a float. *)
Lemma unsigned_differences_spec_witness :
  exists positive negative,
    unsigned_differences (mkSeries (F64 [1; 5; 3; 3]%float) None None)
      (VFloat 2.5) false = Ok (positive, negative)
    /\ length (cells positive) = 4%nat.
Proof.
  destruct (proj1 unsigned_differences_spec
              (mkSeries (F64 [1; 5; 3; 3]%float) None None)
              (VFloat 2.5) false 2)
    as (p & n & H & Hp & _).
  - vm_compute. reflexivity.
  - reflexivity.
  - exists p, n. split; [exact H | exact Hp].
Defined.

(** C10. The two Series [unsigned_differences] returns are 0/1 masks that
    are never both 1 at a position. *)
Theorem unsigned_differences_disjoint
  (series : Series) (amount : value) (asint : bool) (k : Z) :
  (if negb (is_none amount) then py_int amount else Ok 1) = Ok k ->
  ssize_ok k = true ->
  exists positive negative,
    unsigned_differences series amount asint = Ok (positive, negative)
    /\ is_mask (values positive)
    /\ is_mask (values negative)
    /\ length (cells positive) = length (cells negative)
    /\ forall i, (i < length (cells positive))%nat ->
         (nth i (cells positive) nan * nth i (cells negative) nan)%float = 0%float
         /\ ~ (nth i (cells positive) nan = 1%float
               /\ nth i (cells negative) nan = 1%float).
Proof.
  intros Hk Hs.
  rewrite (unsigned_differences_run _ _ _ _ Hk Hs). cbv zeta.
  do 2 eexists. split; [reflexivity|].
  unfold cells. simpl.
  split; [apply is_mask_mask_data|]. split; [apply is_mask_mask_data|].
  rewrite !length_mask_cells. split; [reflexivity|].
  intros i Hi. rewrite !nth_mask_cells by exact Hi.
  destruct (0 <? nth i (diff_cells k (values series)) nan)%float eqn:Ep.
  - rewrite (FloatOrder.ltb_asym _ _ Ep).
    split; [reflexivity | intros [_ H]; discriminate H].
  - split; [destruct (_ <? 0)%float; reflexivity | intros [H _]; discriminate H].
Qed.

(** A use of [unsigned_differences_disjoint] on the docstring example. *)
Lemma unsigned_differences_disjoint_witness :
  exists positive negative,
    unsigned_differences unsigned_example (VInt 1) true = Ok (positive, negative)
    /\ is_mask (values positive) /\ is_mask (values negative).
Proof.
  destruct (unsigned_differences_disjoint unsigned_example (VInt 1) true 1)
    as (p & n & H & Hp & Hn & _).
  - reflexivity.
  - reflexivity.
  - exists p, n. split; [exact H | split; [exact Hp | exact Hn]].
Defined.

(** ** recent_maximum_index and recent_minimum_index *)

Section FirstBest.

Variable le : float -> float -> bool.
Hypothesis le_total :
  forall a b, is_nan a = false -> is_nan b = false ->
              le a b = false -> le b a = true.
Hypothesis le_trans :
  forall a b c, le a b = true -> le b c = true -> le a c = true.

Lemma le_refl a : is_nan a = false -> le a a = true.
Proof.
  intros Ha. destruct (le a a) eqn:E; [reflexivity|].
  rewrite (le_total a a Ha Ha E) in E. discriminate.
Qed.

Lemma numeric_nth l j : numeric l -> (j < length l)%nat -> is_nan (nth j l nan) = false.
Proof.
  intros Hl Hj. unfold numeric in Hl. rewrite Forall_forall in Hl.
  apply Hl, nth_In, Hj.
Qed.

Lemma scan_first_best t :
  forall pre mp ind,
    numeric (pre ++ t) ->
    (ind < length pre)%nat ->
    nth ind pre nan = mp ->
    (forall j, (j < length pre)%nat -> le (nth j pre nan) mp = true) ->
    (forall j, (j < ind)%nat -> le mp (nth j pre nan) = false) ->
    first_best le (pre ++ t) (scan le t (length pre) mp ind).
Proof.
  induction t as [|x t IH]; intros pre mp ind Hnum Hind Hmp Hbest Hfirst.
  - simpl. rewrite app_nil_r. subst mp. repeat split; assumption.
  - assert (Hx : is_nan x = false).
    { unfold numeric in Hnum. rewrite Forall_forall in Hnum.
      apply Hnum, in_or_app. right. left. reflexivity. }
    assert (Hm : is_nan mp = false).
    { subst mp. rewrite <- (app_nth1 pre (x :: t) nan Hind).
      apply numeric_nth; [exact Hnum | rewrite length_app; lia]. }
    assert (Hpre : forall j, (j < length pre)%nat ->
                             nth j (pre ++ [x]) nan = nth j pre nan)
      by (intros j Hj; now apply app_nth1).
    assert (Hlast : nth (length pre) (pre ++ [x]) nan = x)
      by (rewrite app_nth2, Nat.sub_diag by lia; reflexivity).
    assert (Hlen : length (pre ++ [x]) = S (length pre))
      by (rewrite length_app; simpl; lia).
    replace (pre ++ x :: t) with ((pre ++ [x]) ++ t) in *
      by (rewrite <- app_assoc; reflexivity).
    simpl. destruct (le x mp) eqn:E; simpl.
    + rewrite <- Hlen. apply IH.
      * exact Hnum.
      * lia.
      * now rewrite Hpre.
      * intros j Hj. rewrite Hlen in Hj.
        destruct (Nat.eq_dec j (length pre)) as [->|Hne].
        -- now rewrite Hlast.
        -- rewrite Hpre by lia. apply Hbest. lia.
      * intros j Hj. rewrite Hpre by lia. now apply Hfirst.
    + rewrite Hx. rewrite <- Hlen. apply IH.
      * exact Hnum.
      * lia.
      * exact Hlast.
      * intros j Hj. rewrite Hlen in Hj.
        destruct (Nat.eq_dec j (length pre)) as [->|Hne].
        -- rewrite Hlast. now apply le_refl.
        -- rewrite Hpre by lia.
           apply (le_trans _ mp); [apply Hbest; lia|].
           now apply le_total.
      * intros j Hj. rewrite Hpre by lia.
        destruct (le x (nth j pre nan)) eqn:E'; [|reflexivity].
        rewrite (le_trans _ _ _ E' (Hbest j Hj)) in E. discriminate.
Qed.

Lemma scan_head_first_best mp t :
  numeric (mp :: t) -> first_best le (mp :: t) (scan le t 1 mp 0).
Proof.
  intros Hnum. apply (scan_first_best t [mp] mp 0%nat).
  - exact Hnum.
  - simpl. lia.
  - reflexivity.
  - intros [|j] Hj; simpl in *; [|lia].
    apply le_refl. now inversion Hnum.
  - intros j Hj. lia.
Qed.

End FirstBest.

Lemma argmax_scan_eq l i mp ind :
  argmax_scan l i mp ind = scan PrimFloat.leb l i mp ind.
Proof.
  revert i mp ind. induction l as [|x l IH]; intros; simpl; [reflexivity|].
  now rewrite !IH.
Qed.

Lemma argmin_scan_eq l i mp ind :
  argmin_scan l i mp ind = scan (fun x mp => PrimFloat.leb mp x) l i mp ind.
Proof.
  revert i mp ind. induction l as [|x l IH]; intros; simpl; [reflexivity|].
  now rewrite !IH.
Qed.

Lemma argmax_first_best l :
  l <> [] -> numeric l ->
  exists r, argmax l = Ok (Z.of_nat r) /\ first_best PrimFloat.leb l r.
Proof.
  intros Hne Hnum. destruct l as [|mp t]; [congruence|].
  unfold argmax. replace (is_nan mp) with false by (now inversion Hnum).
  rewrite argmax_scan_eq. eexists. split; [reflexivity|].
  apply scan_head_first_best.
  - apply FloatOrder.leb_total_le.
  - apply FloatOrder.leb_trans.
  - exact Hnum.
Qed.

Lemma argmin_first_best l :
  l <> [] -> numeric l ->
  exists r, argmin l = Ok (Z.of_nat r)
            /\ first_best (fun x mp => PrimFloat.leb mp x) l r.
Proof.
  intros Hne Hnum. destruct l as [|mp t]; [congruence|].
  unfold argmin. replace (is_nan mp) with false by (now inversion Hnum).
  rewrite argmin_scan_eq. eexists. split; [reflexivity|].
  apply scan_head_first_best.
  - intros a b Ha Hb. now apply FloatOrder.leb_total_le.
  - intros a b c Hab Hbc. exact (FloatOrder.leb_trans _ _ _ Hbc Hab).
  - exact Hnum.
Qed.

(** A first best position of the reversed window, read on the window. *)
Lemma first_best_rev le x r :
  first_best le (rev x) r ->
  (r < length x)%nat
  /\ (forall j, (j < length x)%nat ->
        le (nth j x nan) (nth (length x - 1 - r) x nan) = true)
  /\ (forall j, (length x - 1 - r < j < length x)%nat ->
        le (nth (length x - 1 - r) x nan) (nth j x nan) = false).
Proof.
  intros (Hr & Hbest & Hfirst). rewrite length_rev in Hr, Hbest.
  assert (Hrev : forall j, (j < length x)%nat ->
                           nth j (rev x) nan = nth (length x - 1 - j) x nan).
  { intros j Hj. rewrite rev_nth by exact Hj. f_equal. lia. }
  split; [exact Hr|]. split.
  - intros j Hj. rewrite <- (Hrev r Hr).
    replace j with (length x - 1 - (length x - 1 - j))%nat by lia.
    rewrite <- Hrev by lia. apply Hbest. lia.
  - intros j Hj. rewrite <- (Hrev r Hr).
    replace j with (length x - 1 - (length x - 1 - j))%nat by lia.
    rewrite <- Hrev by lia. apply Hfirst. lia.
Qed.

Lemma numeric_rev x : numeric x -> numeric (rev x).
Proof. unfold numeric. apply Forall_rev. Qed.

(** C8. On a non-empty window of defined numbers, [recent_maximum_index]
    returns [k] such that the element [k] places before the last one is a
    maximum of the window and every element after it (closer to the end)
    is strictly smaller; [recent_minimum_index] likewise with a minimum
    and strictly greater elements after it. *)
Theorem recent_index_spec (x : list float) :
  x <> [] -> numeric x ->
  (exists k,
      recent_maximum_index x = Ok (Z.of_nat k)
      /\ (k < length x)%nat
      /\ (forall j, (j < length x)%nat ->
            (nth j x nan <=? nth (length x - 1 - k) x nan)%float = true)
      /\ (forall j, (length x - 1 - k < j < length x)%nat ->
            (nth j x nan <? nth (length x - 1 - k) x nan)%float = true))
  /\ (exists k,
         recent_minimum_index x = Ok (Z.of_nat k)
         /\ (k < length x)%nat
         /\ (forall j, (j < length x)%nat ->
               (nth (length x - 1 - k) x nan <=? nth j x nan)%float = true)
         /\ (forall j, (length x - 1 - k < j < length x)%nat ->
               (nth (length x - 1 - k) x nan <? nth j x nan)%float = true)).
Proof.
  intros Hne Hnum.
  assert (Hne' : rev x <> []).
  { intros H. apply Hne. rewrite <- (rev_involutive x), H. reflexivity. }
  assert (Hn : forall j, (j < length x)%nat -> is_nan (nth j x nan) = false)
    by (intros j Hj; now apply numeric_nth).
  split.
  - destruct (argmax_first_best (rev x) Hne' (numeric_rev x Hnum)) as (k & Hk & Hb).
    apply first_best_rev in Hb as (Hlt & Hbest & Hfirst).
    exists k. repeat split; try assumption.
    intros j Hj. apply FloatOrder.leb_total; [apply Hn; lia | apply Hn; lia|].
    now apply Hfirst.
  - destruct (argmin_first_best (rev x) Hne' (numeric_rev x Hnum)) as (k & Hk & Hb).
    apply first_best_rev in Hb as (Hlt & Hbest & Hfirst).
    exists k. repeat split; try assumption.
    intros j Hj. apply FloatOrder.leb_total; [apply Hn; lia | apply Hn; lia|].
    now apply Hfirst.
Qed.

(** A use of [recent_index_spec] on a window with ties. *)
Lemma recent_index_spec_witness :
  (exists k, recent_maximum_index [1; 3; 2; 3; 0]%float = Ok (Z.of_nat k)
             /\ (k < 5)%nat)
  /\ recent_maximum_index [1; 3; 2; 3; 0]%float = Ok 1
  /\ recent_minimum_index [0; 3; 0; 3; 1]%float = Ok 2.
Proof.
  split; [|split; reflexivity].
  destruct (recent_index_spec [1; 3; 2; 3; 0]%float) as [(k & Hk & Hlt & _) _].
  - discriminate.
  - repeat constructor.
  - exists k. split; [exact Hk | exact Hlt].
Defined.

(** ** performance *)

Section PerformanceFacts.

Variable ta_indicators : list string -> list string.
Variable timed_ms : string -> bool -> result float.
Variable describe : list float -> float * float * float * float.
Variable col_sum : list float -> float.
Variable sort_values : string -> bool -> list row -> result (list row).

(** C3 (as the code has it). When a positive integer [top] is given and
    a summary is returned, the summary is computed over the whole sorted
    table, before the table is cut to its first [top] rows: the returned
    table is the cut one, the returned summary describes every timed
    indicator. *)
Theorem performance_stats_before_top
  (excluded : option (list string)) (top : Z) (talib : value)
  (ascending : bool) (sortby : string) (gradient places stats : value)
  (data tdf : list row) :
  0 < top ->
  ta_indicators (exclusions excluded) <> [] ->
  indicator_time timed_ms (true_flag talib)
    (ta_indicators (exclusions excluded)) places = Ok data ->
  sort_values sortby ascending data = Ok tdf ->
  true_flag gradient = true \/ true_flag stats = true ->
  exists r,
    performance ta_indicators timed_ms describe col_sum sort_values
      false excluded (VInt top) talib ascending sortby gradient places stats
    = Ok r
    /\ report_table r = Some (firstn (Z.to_nat top) tdf)
    /\ report_stats r = Some (time_stats describe col_sum tdf).
Proof.
  intros Htop Hne Hdata Hsort Hflag. unfold performance.
  destruct (ta_indicators (exclusions excluded)) as [|i l] eqn:Ei;
    [congruence|].
  cbn [length Nat.eqb]. rewrite Hdata. cbn [bind]. rewrite Hsort. cbn [bind].
  unfold get_top. cbn [is_int int_value andb].
  replace (0 <? top) with true by (symmetry; apply Z.ltb_lt; exact Htop).
  destruct (true_flag gradient) eqn:Eg.
  - eexists. split; [reflexivity|]. split; reflexivity.
  - destruct Hflag as [H|H]; [discriminate|]. rewrite H.
    eexists. split; [reflexivity|]. split; reflexivity.
Qed.

End PerformanceFacts.

(** A use of [performance_stats_before_top] on the small dataset. *)
Lemma performance_stats_before_top_witness :
  exists r,
    Bench.run (VInt 1) (VInt 5) = Ok r
    /\ report_table r = Some [mkRow "sma" 0.003 3]
    /\ report_stats r
       = Some (Bench.time_stats
                 [mkRow "sma" 0.003 3; mkRow "rsi" 0.002 2; mkRow "ema" 0.001 1]).
Proof.
  apply (performance_stats_before_top
           Bench.ta_indicators Bench.timed_ms Bench.describe Bench.col_sum
           Bench.sort_values None 1 (VBool false) false "secs" (VBool false)
           (VInt 5) (VBool true)
           [mkRow "ema" 0.001 1; mkRow "rsi" 0.002 2; mkRow "sma" 0.003 3]
           [mkRow "sma" 0.003 3; mkRow "rsi" 0.002 2; mkRow "ema" 0.001 1]).
  - reflexivity.
  - discriminate.
  - vm_compute. reflexivity.
  - vm_compute. reflexivity.
  - right. reflexivity.
Defined.

(** C3, the claim as written fails: with [top = 1] the returned table has
    the single slowest row, while the returned summary still reports the
    minimum, median, mean and total of all three rows. *)
Lemma performance_stats_not_of_top_rows :
  exists tdf total_timedf,
    Bench.run (VInt 1) (VInt 5) = Ok (RTableStats tdf total_timedf)
    /\ tdf = [mkRow "sma" 0.003 3]
    /\ st_min (sum_ms total_timedf) = 1%float
    /\ st_min (sum_ms (Bench.time_stats tdf)) = 3%float
    /\ st_total (sum_ms total_timedf) = 6%float
    /\ st_total (sum_ms (Bench.time_stats tdf)) = 3%float
    /\ total_timedf <> Bench.time_stats tdf.
Proof.
  do 2 eexists. split; [vm_compute; reflexivity|].
  split; [reflexivity|].
  repeat (split; [vm_compute; reflexivity|]).
  intros H.
  apply (f_equal (fun t => (st_min (sum_ms t) =? 1)%float)) in H.
  vm_compute in H. discriminate H.
Qed.

(** ** Defaults of the numeric parameters *)

(** C9 (as the code has it). [get_offset], [get_drift] and the reading of
    [top] never raise and fall back to 0, 1 and "no top" on a value that
    is not an integer (or is zero for drift, not positive for top); an
    integer is kept.  Without a top, [performance] returns the whole
    sorted table.  [amount] falls back to 1 when it is [None]. *)
Theorem parameter_defaults :
  (forall x,
      (is_int x = false -> get_offset x = 0)
      /\ (forall z, x = VInt z -> get_offset x = z))
  /\ (forall x,
         (is_int x = false \/ int_value x = 0 -> get_drift x = 1)
         /\ (forall z, x = VInt z -> z <> 0 -> get_drift x = z))
  /\ (forall x,
         (is_int x = false \/ int_value x <= 0 -> get_top x = None)
         /\ (forall z, x = VInt z -> 0 < z -> get_top x = Some z))
  /\ (forall ta_indicators timed_ms describe col_sum sort_values
             excluded top talib ascending sortby gradient places stats
             data tdf,
         get_top top = None ->
         ta_indicators (exclusions excluded) <> [] ->
         indicator_time timed_ms (true_flag talib)
           (ta_indicators (exclusions excluded)) places = Ok data ->
         sort_values sortby ascending data = Ok tdf ->
         exists r,
           performance ta_indicators timed_ms describe col_sum sort_values
             false excluded top talib ascending sortby gradient places stats
           = Ok r
           /\ report_table r = Some tdf)
  /\ (forall series asint,
         unsigned_differences series VNone asint
         = unsigned_differences series (VInt 1) asint)
  /\ get_offset (VFloat 3.5) = 0
  /\ get_offset (VInt 5) = 5
  /\ get_drift (VInt 0) = 1
  /\ get_drift (VInt (-3)) = -3.
Proof.
  split; [|split; [|split; [|split; [|split; [|repeat split; reflexivity]]]]].
  - intros x. unfold get_offset. split.
    + intros ->. reflexivity.
    + intros z ->. reflexivity.
  - intros x. unfold get_drift. split.
    + intros [-> | ->]; [reflexivity|]. simpl. now rewrite andb_false_r.
    + intros z -> Hz. simpl. apply Z.eqb_neq in Hz. now rewrite Hz.
  - intros x. unfold get_top. split.
    + intros [-> | H]; [reflexivity|].
      replace (0 <? int_value x) with false by (symmetry; apply Z.ltb_ge; exact H).
      now rewrite andb_false_r.
    + intros z -> Hz. simpl. apply Z.ltb_lt in Hz. now rewrite Hz.
  - intros ta_indicators timed_ms describe col_sum sort_values excluded top
      talib ascending sortby gradient places stats data tdf
      Htop Hne Hdata Hsort.
    unfold performance.
    destruct (ta_indicators (exclusions excluded)) as [|i l] eqn:Ei;
      [congruence|].
    cbn [length Nat.eqb]. rewrite Hdata. cbn [bind]. rewrite Hsort. cbn [bind].
    rewrite Htop.
    destruct (true_flag gradient); [|destruct (true_flag stats)];
      eexists; split; reflexivity.
  - reflexivity.
Qed.

(** A use of [parameter_defaults]: a float given as [top] leaves the
    table of the small dataset whole. *)
Lemma parameter_defaults_witness :
  get_top (VFloat 2.5) = None
  /\ exists r,
       Bench.run (VFloat 2.5) (VInt 5) = Ok r
       /\ report_table r
          = Some [mkRow "sma" 0.003 3; mkRow "rsi" 0.002 2; mkRow "ema" 0.001 1].
Proof.
  split; [reflexivity|].
  apply (proj1 (proj2 (proj2 (proj2 parameter_defaults)))
           Bench.ta_indicators Bench.timed_ms Bench.describe Bench.col_sum
           Bench.sort_values None (VFloat 2.5) (VBool false) false
           "secs"%string (VBool false) (VInt 5) (VBool true)
           [mkRow "ema" 0.001 1; mkRow "rsi" 0.002 2; mkRow "sma" 0.003 3]).
  - reflexivity.
  - discriminate.
  - vm_compute. reflexivity.
  - vm_compute. reflexivity.
Defined.

(** C9, the claim as written fails for [amount] and [places]: an
    [amount] that is not [None] goes through [int], which raises on a
    string that is not a number and on nan and truncates 2.5 to two steps
    instead of falling back to one; [places] goes to [round] unchecked,
    which raises on a float. *)
Lemma amount_and_places_do_not_fall_back :
  unsigned_differences unsigned_example (VStr "abc") false = Raise ValueError
  /\ unsigned_differences unsigned_example (VFloat nan) false = Raise ValueError
  /\ unsigned_differences unsigned_example (VFloat 2.5) false
     = unsigned_differences unsigned_example (VInt 2) false
  /\ unsigned_differences unsigned_example (VFloat 2.5) false
     <> unsigned_differences unsigned_example (VInt 1) false
  /\ Bench.run VNone (VFloat 2.5) = Raise TypeError
  /\ Bench.run VNone (VStr "5") = Raise TypeError.
Proof.
  repeat (split; [vm_compute; reflexivity|]).
  split; [|split; vm_compute; reflexivity].
  intros H.
  apply (f_equal (fun r : result (Series * Series) =>
                    match r with
                    | Ok (p, _) => (nth 7 (cells p) nan =? 1)%float
                    | Raise _ => false
                    end)) in H.
  vm_compute in H. discriminate H.
Qed.

(** ** camelCase2Title and tal_ma *)

Lemma lower_not_upper c : Str.is_lower c = true -> Str.is_upper c = false.
Proof. destruct c as [[] [] [] [] [] [] [] []]; vm_compute; congruence. Qed.

Lemma to_upper_upper c :
  Str.is_lower c = true ->
  Str.is_upper (Str.to_upper c) = true /\ Str.is_lower (Str.to_upper c) = false.
Proof. destruct c as [[] [] [] [] [] [] [] []]; vm_compute; intuition congruence. Qed.

Lemma to_lower_lower c :
  Str.is_upper c = true ->
  Str.is_lower (Str.to_lower c) = true /\ Str.is_upper (Str.to_lower c) = false.
Proof. destruct c as [[] [] [] [] [] [] [] []]; vm_compute; intuition congruence. Qed.

Lemma to_lower_idem c : Str.to_lower (Str.to_lower c) = Str.to_lower c.
Proof. destruct c as [[] [] [] [] [] [] [] []]; reflexivity. Qed.

Lemma to_lower_to_upper c : Str.to_lower (Str.to_upper c) = Str.to_lower c.
Proof. destruct c as [[] [] [] [] [] [] [] []]; reflexivity. Qed.

Lemma title_from_idem l :
  forall p, Str.title_from p (Str.title_from p l) = Str.title_from p l.
Proof.
  induction l as [|c t IH]; intros p; [reflexivity|].
  simpl. destruct (Str.is_lower c) eqn:El.
  - destruct p; simpl.
    + now rewrite El, IH.
    + destruct (to_upper_upper c El) as [Hu Hl]. now rewrite Hl, Hu, IH.
  - destruct (Str.is_upper c) eqn:Eu.
    + destruct p; simpl.
      * destruct (to_lower_lower c Eu) as [Hl Hu]. now rewrite Hl, IH.
      * now rewrite El, Eu, IH.
    + simpl. now rewrite El, Eu, IH.
Qed.

Lemma title_from_after_cased l :
  match Str.title_from true l with
  | b :: _ => Str.is_upper b = false
  | [] => True
  end.
Proof.
  destruct l as [|c t]; [exact I|]. simpl.
  destruct (Str.is_lower c) eqn:El; [now apply lower_not_upper|].
  destruct (Str.is_upper c) eqn:Eu; [|exact Eu].
  now destruct (to_lower_lower c Eu).
Qed.

Lemma no_camel_title_from l : forall p, no_camel (Str.title_from p l).
Proof.
  induction l as [|c t IH]; intros p; [exact I|].
  assert (Hc : forall x p', (Str.is_lower x = true -> p' = true) ->
                            no_camel (x :: Str.title_from p' t)).
  { intros x p' Hx. pose proof (IH p') as Hn.
    pose proof (title_from_after_cased t) as Hh.
    simpl. destruct (Str.title_from p' t) as [|b r] eqn:Er; [exact I|].
    split; [|exact Hn].
    destruct (Str.is_lower x) eqn:Ex; [|reflexivity].
    rewrite (Hx eq_refl) in Er. rewrite Er in Hh. now rewrite Hh. }
  simpl. destruct (Str.is_lower c) eqn:El.
  - apply Hc. reflexivity.
  - destruct (Str.is_upper c) eqn:Eu; apply Hc; [reflexivity|congruence].
Qed.

Lemma split_camel_fixed l : no_camel l -> Str.split_camel l = l.
Proof.
  induction l as [|a t IH]; [reflexivity|].
  destruct t as [|b r]; [reflexivity|].
  intros [H Hn]. change (Str.split_camel (a :: b :: r))
    with (if Str.is_lower a && Str.is_upper b
          then a :: " "%char :: Str.split_camel (b :: r)
          else a :: Str.split_camel (b :: r)).
  rewrite H. now rewrite IH.
Qed.

(** X1. [camelCase2Title] is idempotent, and in its result no lowercase
    letter is directly followed by an uppercase one. *)
Theorem camelCase2Title_idempotent (x : string) :
  camelCase2Title (camelCase2Title x) = camelCase2Title x
  /\ no_camel (list_ascii_of_string (camelCase2Title x)).
Proof.
  unfold camelCase2Title, Str.title.
  rewrite !list_ascii_of_string_of_list_ascii.
  split.
  - rewrite (split_camel_fixed _ (no_camel_title_from _ false)).
    now rewrite title_from_idem.
  - apply no_camel_title_from.
Qed.

Example camelCase2Title_examples :
  camelCase2Title "camelCase2Title" = "Camel Case2Title"%string
  /\ camelCase2Title "verifySeries" = "Verify Series"%string
  /\ camelCase2Title "HTTPServer" = "Httpserver"%string
  /\ camelCase2Title "aBcD" = "A Bc D"%string.
Proof. repeat split; reflexivity. Qed.

Lemma length_string_of_list_ascii l :
  String.length (string_of_list_ascii l) = length l.
Proof. induction l as [|c l IH]; simpl; [reflexivity | now rewrite IH]. Qed.

Lemma length_list_ascii_of_string s :
  length (list_ascii_of_string s) = String.length s.
Proof. induction s as [|c s IH]; simpl; [reflexivity | now rewrite IH]. Qed.

Lemma length_lower s : String.length (Str.lower s) = String.length s.
Proof.
  unfold Str.lower.
  now rewrite length_string_of_list_ascii, length_map, length_list_ascii_of_string.
Qed.

Lemma length_upper s : String.length (Str.upper s) = String.length s.
Proof.
  unfold Str.upper.
  now rewrite length_string_of_list_ascii, length_map, length_list_ascii_of_string.
Qed.

Lemma lower_lower s : Str.lower (Str.lower s) = Str.lower s.
Proof.
  unfold Str.lower. rewrite list_ascii_of_string_of_list_ascii, map_map.
  f_equal. apply map_ext. exact to_lower_idem.
Qed.

Lemma lower_upper s : Str.lower (Str.upper s) = Str.lower s.
Proof.
  unfold Str.lower, Str.upper. rewrite list_ascii_of_string_of_list_ascii, map_map.
  f_equal. apply map_ext. exact to_lower_to_upper.
Qed.

(** X2. [tal_ma] returns a member of [MA_Type] (0 to 8), reads the name
    without regard to case, and returns SMA (0) for everything when TA Lib
    is not there or the name is not a string. *)
Theorem tal_ma_spec :
  (forall talib name, 0 <= tal_ma talib name <= 8)
  /\ (forall talib s,
         tal_ma talib (VStr (Str.upper s)) = tal_ma talib (VStr s)
         /\ tal_ma talib (VStr (Str.lower s)) = tal_ma talib (VStr s))
  /\ (forall name, tal_ma false name = 0)
  /\ (forall talib name, is_str name = false -> tal_ma talib name = 0).
Proof.
  split; [|split; [|split]].
  - intros talib name. unfold tal_ma. destruct name; try lia.
    destruct (talib && _); [|lia].
    repeat match goal with
           | |- context [if ?b then _ else _] => destruct b
           end; lia.
  - intros talib s. unfold tal_ma.
    now rewrite length_upper, length_lower, lower_upper, lower_lower.
  - intros name. unfold tal_ma. now destruct name.
  - intros talib name H. unfold tal_ma. destruct name; try reflexivity.
    discriminate H.
Qed.

Example tal_ma_examples :
  tal_ma true (VStr "EMA") = 1 /\ tal_ma true (VStr "T3") = 8
  /\ tal_ma true (VStr "hma") = 0 /\ tal_ma true (VStr "t") = 0
  /\ tal_ma true (VInt 3) = 0 /\ tal_ma false (VStr "ema") = 0.
Proof. repeat split; reflexivity. Qed.

(** ** is_datetime_ordered *)

(** X3. On an index that is not a datetime index [is_datetime_ordered]
    returns False whatever the index holds, an empty index or a failing
    comparison included; on a datetime index that is empty, or whose
    comparison raises, it raises (the unbound [ordered]). *)
Theorem is_datetime_ordered_failures (E : Type) (lt : E -> E -> result bool) :
  (forall index, is_datetime_ordered lt false index = Returns false)
  /\ is_datetime_ordered lt true [] = UnboundLocalError
  /\ (forall index e,
         first_lt_last lt index = Raise e ->
         is_datetime_ordered lt true index = UnboundLocalError).
Proof.
  split; [|split].
  - intros index. unfold is_datetime_ordered.
    now destruct (first_lt_last lt index).
  - reflexivity.
  - intros index e H. unfold is_datetime_ordered. now rewrite H.
Qed.

Lemma last_cons_app {A : Type} (a b : A) mid d : last (a :: mid ++ [b]) d = b.
Proof. change (a :: mid ++ [b]) with ((a :: mid) ++ [b]). apply last_last. Qed.

Lemma sorted_first_lt_last a rest :
  Sorted Z.lt (a :: rest) -> rest <> [] -> a < last (a :: rest) a.
Proof.
  intros Hs Hne.
  apply Sorted_StronglySorted in Hs; [|intros x y z; apply Z.lt_trans].
  inversion Hs as [|? ? _ Hall]; subst.
  rewrite Forall_forall in Hall. apply Hall.
  destruct rest as [|b r]; [congruence|].
  change (last (a :: b :: r) a) with (last (b :: r) a).
  destruct (exists_last (l := b :: r)) as (l' & x & Hx); [discriminate|].
  rewrite Hx, last_last. apply in_or_app. right. left. reflexivity.
Qed.

Lemma last_map_Some {A : Type} (l : list A) d :
  last (map Some l) (Some d) = Some (last l d).
Proof.
  induction l as [|x l IH]; [reflexivity|].
  destruct l; [reflexivity | exact IH].
Qed.

(** X4. On a datetime index [is_datetime_ordered] looks at the first and
    the last stamp only: the result is [first < last] whatever lies
    between, False on a single row, and True on every strictly increasing
    index of two rows or more. *)
Theorem is_datetime_ordered_endpoints :
  (forall a mid b,
      is_datetime_ordered stamp_lt true (a :: mid ++ [b])
      = Returns match a, b with
                | Some x, Some y => x <? y
                | _, _ => false
                end)
  /\ (forall a, is_datetime_ordered stamp_lt true [a] = Returns false)
  /\ (forall stamps,
         Sorted Z.lt stamps -> (2 <= length stamps)%nat ->
         is_datetime_ordered stamp_lt true (map Some stamps) = Returns true).
Proof.
  split; [|split].
  - intros a mid b. unfold is_datetime_ordered, first_lt_last.
    rewrite last_cons_app. now destruct a, b.
  - intros [x|]; [|reflexivity].
    unfold is_datetime_ordered. simpl. now rewrite Z.ltb_irrefl.
  - intros [|a rest] Hs Hlen; [simpl in Hlen; lia|].
    assert (Hne : rest <> []) by (destruct rest; simpl in Hlen; [lia | discriminate]).
    pose proof (sorted_first_lt_last a rest Hs Hne) as Hlt.
    assert (H : first_lt_last stamp_lt (map Some (a :: rest)) = Ok true).
    { cbn [map first_lt_last].
      change (Some a :: map Some rest) with (map Some (a :: rest)).
      rewrite last_map_Some. unfold stamp_lt.
      apply Z.ltb_lt in Hlt. now rewrite Hlt. }
    unfold is_datetime_ordered. now rewrite H.
Qed.

(** A use of [is_datetime_ordered_endpoints]: three increasing stamps, and
    an index that is not sorted yet counts as ordered. *)
Lemma is_datetime_ordered_endpoints_witness :
  is_datetime_ordered stamp_lt true (map Some [10; 20; 30]) = Returns true
  /\ is_datetime_ordered stamp_lt true [Some 10; Some 50; Some 5; Some 30]
     = Returns true.
Proof.
  split.
  - apply (proj2 (proj2 is_datetime_ordered_endpoints) [10; 20; 30]).
    + repeat constructor.
    + simpl. lia.
  - exact (proj1 is_datetime_ordered_endpoints (Some 10) [Some 50; Some 5] (Some 30)).
Defined.

(** ** The IEEE 754 reading of a float64 *)

Lemma digits2_pos_bounds m :
  2 ^ (Zpos (digits2_pos m) - 1) <= Zpos m < 2 ^ Zpos (digits2_pos m).
Proof.
  induction m as [m IH|m IH|]; cbn [digits2_pos];
    rewrite ?Pos2Z.inj_succ.
  - replace (Z.succ (Zpos (digits2_pos m)) - 1) with (Zpos (digits2_pos m)) by lia.
    rewrite Z.pow_succ_r by lia.
    replace (2 ^ Zpos (digits2_pos m))
      with (2 * 2 ^ (Zpos (digits2_pos m) - 1)) in *
      by (rewrite <- Z.pow_succ_r by lia; f_equal; lia).
    lia.
  - replace (Z.succ (Zpos (digits2_pos m)) - 1) with (Zpos (digits2_pos m)) by lia.
    rewrite Z.pow_succ_r by lia.
    replace (2 ^ Zpos (digits2_pos m))
      with (2 * 2 ^ (Zpos (digits2_pos m) - 1)) in *
      by (rewrite <- Z.pow_succ_r by lia; f_equal; lia).
    lia.
  - cbn. lia.
Qed.

(** A finite float64 has a mantissa below 2^53 and an exponent from -1074
    to 971. *)
Lemma valid_finite s m e :
  SpecFloat.valid_binary prec emax (S754_finite s m e) = true ->
  Zpos m < 2 ^ 53 /\ -1074 <= e <= 971.
Proof.
  unfold SpecFloat.valid_binary, bounded, canonical_mantissa, fexp, SpecFloat.emin.
  change prec with 53. change emax with 1024.
  intros H. apply andb_true_iff in H as [Hc Hb].
  apply Z.eqb_eq in Hc. apply Z.leb_le in Hb.
  pose proof (digits2_pos_bounds m) as [_ Hm].
  assert (Hd : Zpos (digits2_pos m) <= 53) by lia.
  split; [|lia].
  eapply Z.lt_le_trans; [exact Hm|].
  apply Z.pow_le_mono_r; lia.
Qed.

Lemma prim_finite d s m e :
  Prim2SF d = S754_finite s m e -> Zpos m < 2 ^ 53 /\ -1074 <= e <= 971.
Proof.
  intros H. apply (valid_finite s). rewrite <- H. apply Prim2SF_valid.
Qed.

(** ** is_percent *)

Lemma Prim2SF_100 :
  Prim2SF 100 = S754_finite false 7036874417766400%positive (-46).
Proof. vm_compute. reflexivity. Qed.

Lemma Prim2SF_0 : Prim2SF 0 = S754_zero false.
Proof. vm_compute. reflexivity. Qed.

(** What lies between zero and a positive finite float64. *)
Lemma SFleb_between x m2 e2 :
  SFleb (S754_zero false) x = true ->
  SFleb x (S754_finite false m2 e2) = true ->
  (exists s, x = S754_zero s)
  \/ (exists m e, x = S754_finite false m e
                  /\ (e < e2 \/ (e = e2 /\ Zpos m <= Zpos m2))).
Proof.
  unfold SFleb, SFcompare.
  destruct x as [s|s| |s m e].
  - intros _ _. left. now exists s.
  - destruct s; discriminate.
  - discriminate.
  - destruct s; [discriminate|]. intros _.
    change (Pos.compare_cont Eq m m2) with (Pos.compare m m2).
    right. exists m, e. split; [reflexivity|].
    destruct (Z.compare_spec e e2); try discriminate; [|left; assumption].
    destruct (Pos.compare_spec m m2); try discriminate; right; split;
      try assumption; subst; lia.
Qed.

Lemma percent_float_int f :
  (0 <=? f)%float = true -> (f <=? 100)%float = true ->
  exists z, PyInt.of_float f = Ok z /\ 0 <= z <= 100.
Proof.
  rewrite !leb_spec, Prim2SF_100, Prim2SF_0. intros H0 H100.
  unfold PyInt.of_float, Cell.trunc.
  destruct (SFleb_between _ _ _ H0 H100) as [[s E]|(m & e & E & Hcmp)].
  - rewrite E. exists 0. split; [reflexivity | lia].
  - rewrite E. destruct (prim_finite f false m e E) as [Hm He].
    destruct e as [|p|p]; try lia.
    eexists. split; [reflexivity|].
    rewrite Z.shiftr_div_pow2 by lia.
    split; [apply Z.div_pos; lia|].
    apply Z.div_le_upper_bound; [lia|].
    destruct Hcmp as [Hlt | [Heq Hle]].
    + assert (H47 : 2 ^ 47 <= 2 ^ Zpos p) by (apply Z.pow_le_mono_r; lia).
      lia.
    + replace (Zpos p) with 46 by lia. lia.
Qed.

(** X5. Whatever [is_percent] accepts converts with [int] to an integer
    from 0 to 100: nan, the infinities and everything that is not a number
    are never percents. *)
Theorem is_percent_int (x : value) :
  is_percent x = true -> exists z, py_int x = Ok z /\ 0 <= z <= 100.
Proof.
  destruct x as [| b | z | f | str | l | s]; simpl; try discriminate.
  - intros _. exists (Z.b2z b). split; [reflexivity | destruct b; simpl; lia].
  - intros H. apply andb_true_iff in H as [H0 H1].
    apply Z.leb_le in H0, H1. exists z. split; [reflexivity | lia].
  - intros H. apply andb_true_iff in H as [H0 H1].
    now apply percent_float_int.
Qed.

(** A use of [is_percent_int] on 99.5. *)
Lemma is_percent_int_witness :
  is_percent (VFloat 99.5) = true
  /\ exists z, py_int (VFloat 99.5) = Ok z /\ 0 <= z <= 100.
Proof.
  split; [reflexivity|].
  apply (is_percent_int (VFloat 99.5)). reflexivity.
Defined.

Example is_percent_examples :
  is_percent (VInt 100) = true /\ is_percent (VInt 101) = false
  /\ is_percent (VFloat nan) = false /\ is_percent (VFloat infinity) = false
  /\ is_percent (VFloat (-0)) = true /\ is_percent (VBool true) = true
  /\ is_percent VNone = false /\ is_percent (VStr "50") = false.
Proof. repeat split; reflexivity. Qed.

(** ** float64 arithmetic *)

Module FloatArith.

Lemma SFadd_comm x y : SFadd prec emax x y = SFadd prec emax y x.
Proof.
  destruct x as [sx|sx| |sx mx ex], y as [sy|sy| |sy my ey]; unfold SFadd;
    lazymatch goal with
    | |- context [Z.min] => rewrite (Z.min_comm ex ey), Z.add_comm; reflexivity
    | |- _ => try reflexivity; destruct sx, sy; reflexivity
    end.
Qed.

Lemma add_comm a b : (a + b)%float = (b + a)%float.
Proof.
  apply Prim2SF_inj. rewrite !add_spec. apply SFadd_comm.
Qed.

(** [a - a] is +0, or nan when [a] is nan or an infinity. *)
Lemma sub_diag a : (a - a)%float = 0%float \/ (a - a)%float = nan.
Proof.
  assert (H : Prim2SF (a - a) = S754_zero false \/ Prim2SF (a - a) = S754_nan).
  { rewrite sub_spec. unfold SF64sub, SFsub.
    destruct (Prim2SF a) as [s|s| |s m e].
    - left. now destruct s.
    - right. now destruct s.
    - right. reflexivity.
    - left. rewrite Z.sub_diag. reflexivity. }
  destruct H as [H|H]; [left | right]; apply Prim2SF_inj; rewrite H;
    vm_compute; reflexivity.
Qed.

Lemma shr_1_m r : 0 <= shr_m r -> shr_m (shr_1 r) = shr_m r / 2.
Proof.
  destruct r as [m r s]. simpl. intros Hm.
  destruct m as [|[p|p|]|p]; simpl.
  - reflexivity.
  - rewrite Pos2Z.inj_xI. apply Z.div_unique with 1; lia.
  - rewrite Pos2Z.inj_xO. apply Z.div_unique with 0; lia.
  - reflexivity.
  - lia.
Qed.

Lemma pow2_xI p : 2 ^ Zpos p~1 = 2 * (2 ^ Zpos p * 2 ^ Zpos p).
Proof.
  rewrite (Pos.xI_succ_xO p), Pos2Z.inj_succ, Z.pow_succ_r by lia.
  rewrite <- (Pos.add_diag p), Pos2Z.inj_add, Z.pow_add_r by lia. reflexivity.
Qed.

Lemma pow2_xO p : 2 ^ Zpos p~0 = 2 ^ Zpos p * 2 ^ Zpos p.
Proof.
  rewrite <- (Pos.add_diag p), Pos2Z.inj_add, Z.pow_add_r by lia. reflexivity.
Qed.

Lemma iter_pos_shr_m p :
  forall r, 0 <= shr_m r ->
            shr_m (iter_pos shr_1 p r) = shr_m r / 2 ^ Zpos p.
Proof.
  assert (Hnn : forall q r, 0 <= shr_m r ->
                  shr_m (iter_pos shr_1 q r) = shr_m r / 2 ^ Zpos q ->
                  0 <= shr_m (iter_pos shr_1 q r)).
  { intros q r Hr ->. apply Z.div_pos; [exact Hr|]. apply Z.pow_pos_nonneg; lia. }
  induction p as [p IH|p IH|]; intros r Hr; simpl iter_pos.
  - assert (H1 : 0 <= shr_m (shr_1 r))
      by (rewrite shr_1_m by exact Hr; apply Z.div_pos; lia).
    pose proof (IH _ H1) as E1. pose proof (Hnn _ _ H1 E1) as H2.
    rewrite (IH _ H2), E1, shr_1_m by exact Hr.
    assert (Hp : 0 < 2 ^ Zpos p) by (apply Z.pow_pos_nonneg; lia).
    rewrite !Z.div_div by lia. now rewrite pow2_xI.
  - pose proof (IH _ Hr) as E1. pose proof (Hnn _ _ Hr E1) as H2.
    rewrite (IH _ H2), E1.
    assert (Hp : 0 < 2 ^ Zpos p) by (apply Z.pow_pos_nonneg; lia).
    rewrite !Z.div_div by lia. now rewrite pow2_xO.
  - rewrite shr_1_m by exact Hr. reflexivity.
Qed.

(** Shifting a positive mantissa down to its float64 exponent leaves it
    positive when the exponent is not below the least one. *)
Lemma shr_fexp_pos m e :
  -1074 <= e ->
  1 <= shr_m (fst (shr_fexp prec emax (Zpos m) e loc_Exact))
  /\ -1074 <= snd (shr_fexp prec emax (Zpos m) e loc_Exact).
Proof.
  intros He. unfold shr_fexp, shr, shr_record_of_loc, fexp, SpecFloat.emin.
  change prec with 53. change emax with 1024. simpl Zdigits2.
  change (3 - 1024 - 53) with (-1074).
  pose proof (digits2_pos_bounds m) as [Hlo _].
  destruct (Z.max (Zpos (digits2_pos m) + e - 53) (-1074) - e) as [|n|n] eqn:En;
    simpl fst; simpl snd; try (simpl; lia).
  rewrite iter_pos_shr_m by (simpl; lia). simpl shr_m.
  assert (Hn : Zpos n = Zpos (digits2_pos m) - 53) by lia.
  split; [|lia].
  apply Z.div_le_lower_bound; [apply Z.pow_pos_nonneg; lia|].
  rewrite Z.mul_1_r, Hn.
  eapply Z.le_trans; [|exact Hlo].
  apply Z.pow_le_mono_r; lia.
Qed.

Lemma round_nearest_even_ge m l : m <= round_nearest_even m l.
Proof.
  unfold round_nearest_even. destruct l as [|[]]; try lia.
  destruct (Z.even m); lia.
Qed.

Lemma binary_round_aux_away s m e :
  -1074 <= e ->
  sf_away_from_zero (binary_round_aux prec emax s (Zpos m) e loc_Exact) = true.
Proof.
  intros He. unfold binary_round_aux.
  pose proof (shr_fexp_pos m e He) as [H1 H2].
  destruct (shr_fexp prec emax (Zpos m) e loc_Exact) as [r1 e1].
  simpl fst in H1. simpl snd in H2.
  pose proof (round_nearest_even_ge (shr_m r1) (loc_of_shr_record r1)) as Hr.
  destruct (round_nearest_even (shr_m r1) (loc_of_shr_record r1)) as [|m1|m1];
    try lia.
  pose proof (shr_fexp_pos m1 e1 H2) as [H3 _].
  destruct (shr_fexp prec emax (Zpos m1) e1 loc_Exact) as [r2 e2].
  simpl fst in H3.
  destruct (shr_m r2) as [|m2|m2]; try lia.
  now destruct (e2 <=? emax - prec).
Qed.

Lemma binary_round_away s m e :
  -1074 <= e ->
  sf_away_from_zero (binary_round prec emax s m e) = true.
Proof.
  intros He. unfold binary_round, shl_align.
  destruct (fexp prec emax (Zpos (digits2_pos m) + e) - e) as [|d|d] eqn:Ed;
    try (now apply binary_round_aux_away).
  apply binary_round_aux_away.
  unfold fexp, SpecFloat.emin. change (3 - emax - prec) with (-1074). lia.
Qed.

Lemma SFeqb_away_zero r :
  sf_away_from_zero r = true -> SFeqb r (S754_zero false) = false.
Proof.
  unfold SFeqb, SFcompare. destruct r as [s|s| |s m e]; try discriminate;
    intros _; now destruct s.
Qed.

Lemma SFadd_pos_away m1 e1 m2 e2 :
  -1074 <= e1 -> -1074 <= e2 ->
  sf_away_from_zero
    (SFadd prec emax (S754_finite false m1 e1) (S754_finite false m2 e2)) = true.
Proof.
  intros H1 H2. unfold SFadd, cond_Zopp.
  match goal with
  | |- context [Zpos ?a + Zpos ?b] => change (Zpos a + Zpos b) with (Zpos (a + b))
  end.
  unfold binary_normalize. apply binary_round_away. lia.
Qed.

(** A float64 that is not negative plus a positive finite one is never
    zero. *)
Lemma SFadd_nonneg_pos x m2 e2 :
  SFltb x (S754_zero false) = false ->
  (forall s m e, x = S754_finite s m e -> -1074 <= e) ->
  -1074 <= e2 ->
  SFeqb (SFadd prec emax x (S754_finite false m2 e2)) (S754_zero false) = false.
Proof.
  intros Hx He H2.
  destruct x as [s|s| |s m e].
  - reflexivity.
  - destruct s; [discriminate Hx | reflexivity].
  - reflexivity.
  - destruct s; [discriminate Hx|].
    apply SFeqb_away_zero, SFadd_pos_away; [|exact H2].
    exact (He false m e eq_refl).
Qed.

Lemma Prim2SF_epsilon :
  Prim2SF Cell.epsilon = S754_finite false 4503599627370496%positive (-104).
Proof. vm_compute. reflexivity. Qed.

(** Adding machine epsilon to a value that is not negative never gives
    zero. *)
Lemma add_epsilon_not_zero d :
  (d <? 0)%float = false -> (d + Cell.epsilon =? 0)%float = false.
Proof.
  rewrite ltb_spec, eqb_spec, add_spec, Prim2SF_epsilon, Prim2SF_0.
  intros H. apply SFadd_nonneg_pos; [exact H | | lia].
  intros s m e E. destruct (prim_finite d s m e E) as [_ [Hlo _]]. exact Hlo.
Qed.

End FloatArith.

(** ** hl2: symmetry and far offsets *)

Lemma map_combine_swap {A B : Type} (f g : A -> A -> B) x y :
  (forall a b, f a b = g b a) ->
  map (fun p => f (fst p) (snd p)) (combine x y)
  = map (fun p => g (fst p) (snd p)) (combine y x).
Proof.
  intros H. revert y. induction x as [|a x IH]; intros [|b y]; simpl;
    try reflexivity.
  now rewrite H, IH.
Qed.

Lemma align_with_comm f x y :
  (forall a b, f a b = f b a) -> align_with f x y = align_with f y x.
Proof.
  intros H. unfold align_with.
  rewrite (map_combine_swap f f x y H).
  now rewrite Nat.max_comm, Nat.min_comm.
Qed.

Lemma result_name_comm a b : result_name a b = result_name b a.
Proof.
  unfold result_name. destruct (name a) as [x|], (name b) as [y|];
    try reflexivity.
  destruct (String.eqb_spec x y) as [->|Hne].
  - now rewrite String.eqb_refl.
  - destruct (String.eqb_spec y x) as [->|_]; [congruence | reflexivity].
Qed.

Lemma series_add_comm a b : series_add a b = series_add b a.
Proof.
  unfold series_add, binop. rewrite (result_name_comm a b). f_equal.
  destruct (values a) as [x|x], (values b) as [y|y];
    try (f_equal; apply align_with_comm; exact FloatArith.add_comm).
  rewrite (Nat.eqb_sym (length x) (length y)).
  destruct (Nat.eqb (length y) (length x)).
  - f_equal.
    apply (map_combine_swap (fun p q => Cell.wrap64 (p + q))
             (fun p q => Cell.wrap64 (p + q))).
    intros p q. now rewrite Z.add_comm.
  - f_equal. apply align_with_comm. exact FloatArith.add_comm.
Qed.

(** X6. [hl2] does not depend on the order of its two price arguments:
    [hl2(high, low, offset)] and [hl2(low, high, offset)] are the same
    result or the same exception, for all arguments. *)
Theorem hl2_symmetric (high low offset : value) :
  hl2 high low offset = hl2 low high offset.
Proof.
  unfold hl2, add_verified.
  destruct (verify_series high VNone) as [h|], (verify_series low VNone) as [l|];
    try reflexivity.
  now rewrite (series_add_comm h l).
Qed.

Lemma shift_far {A : Type} (fill : A) k l :
  Z.of_nat (length l) <= Z.abs k -> shift fill k l = repeat fill (length l).
Proof.
  intros H. unfold shift. destruct (Z.leb_spec 0 k) as [Hk|Hk].
  - replace (Nat.min (Z.to_nat k) (length l)) with (length l) by lia.
    rewrite Nat.sub_diag. simpl. apply app_nil_r.
  - replace (Nat.min (Z.to_nat (- k)) (length l)) with (length l) by lia.
    now rewrite skipn_all.
Qed.

(** X7. An offset at least as large as the Series, in either direction,
    leaves no defined value: every cell of the result of [hl2] is
    undefined. *)
Theorem hl2_far_offset (high low : Series) (offset : value) :
  aligned high low ->
  ssize_ok (get_offset offset) = true ->
  0 < size high <= Z.abs (get_offset offset) ->
  exists r,
    hl2 (VSeries high) (VSeries low) offset = Ok r
    /\ cells r = repeat nan (length (cells high)).
Proof.
  intros Ha Hk Hfar. rewrite hl2_valid by exact Hk. cbv zeta.
  set (m := series_rmul 0.5%float (series_add high low)).
  assert (Hm : length (cells m) = length (cells high)).
  { subst m. rewrite cells_series_rmul, length_map. now apply length_binop. }
  assert (Hn : Z.of_nat (length (cells high)) = size high)
    by (unfold cells, size; now rewrite length_floats).
  eexists. split; [reflexivity|].
  replace (get_offset offset =? 0) with false by (symmetry; apply Z.eqb_neq; lia).
  change (cells (mkSeries (F64 (shift nan (get_offset offset) (cells m)))
                   (Some "HL2"%string) (Some "overlap"%string)))
    with (shift nan (get_offset offset) (cells m)).
  rewrite shift_far by lia. now rewrite Hm.
Qed.

(** A use of [hl2_far_offset]: three rows shifted back by three. *)
Lemma hl2_far_offset_witness :
  exists r,
    hl2 (VSeries (mkSeries (F64 [3; 2; 4]%float) None None))
        (VSeries (mkSeries (F64 [1; 1; 1]%float) None None)) (VInt (-3)) = Ok r
    /\ cells r = [nan; nan; nan].
Proof.
  apply (hl2_far_offset (mkSeries (F64 [3; 2; 4]%float) None None)
           (mkSeries (F64 [1; 1; 1]%float) None None) (VInt (-3))).
  - reflexivity.
  - reflexivity.
  - vm_compute. split; [reflexivity | discriminate].
Defined.

(** ** non_zero_range: the result is free of zeros *)

(** X8. When no element of [high - low] is negative, the result of
    [non_zero_range] holds no zero. *)
Theorem non_zero_range_no_zero (high low : Series) :
  (forall d, In d (cells (series_sub high low)) -> (d <? 0)%float = false) ->
  forall i, ~ zero_at (non_zero_range high low) i.
Proof.
  intros Hpos i. unfold non_zero_range.
  destruct (eq0_any (series_sub high low)) eqn:E.
  - unfold zero_at, series_iadd. cbn [values].
    intros (d & Hd & Hz).
    apply nth_error_In, in_map_iff in Hd as (c & <- & Hc).
    rewrite (FloatArith.add_epsilon_not_zero c (Hpos c Hc)) in Hz. discriminate.
  - intros Hz.
    assert (H : eq0_any (series_sub high low) = true)
      by (apply eq0_any_spec; now exists i).
    congruence.
Qed.

(** A use of [non_zero_range_no_zero]: a bar whose high equals its low. *)
Lemma non_zero_range_no_zero_witness :
  zero_at (series_sub (mkSeries (F64 [3; 2]%float) None None)
                      (mkSeries (F64 [1; 2]%float) None None)) 1
  /\ forall i,
       ~ zero_at (non_zero_range (mkSeries (F64 [3; 2]%float) None None)
                                 (mkSeries (F64 [1; 2]%float) None None)) i.
Proof.
  split.
  - exists 0%float. split; reflexivity.
  - apply (non_zero_range_no_zero (mkSeries (F64 [3; 2]%float) None None)
             (mkSeries (F64 [1; 2]%float) None None)).
    intros d [<- | [<- | []]]; reflexivity.
Defined.

(** ** signed_series: failures and range of the signs *)

Lemma ltb_zero_cases d :
  is_nan d = false -> (0 <? d)%float = false -> (d <? 0)%float = false ->
  (d =? 0)%float = true.
Proof.
  intros Hn H1 H2.
  apply FloatOrder.not_nan_num in Hn.
  rewrite ltb_spec in H1, H2. rewrite eqb_spec.
  rewrite Prim2SF_0 in *.
  unfold SFltb, SFeqb in *.
  destruct (Prim2SF d) as [[]| [] | | [] m e]; simpl in *; try discriminate;
    reflexivity.
Qed.

Lemma sign_cell_range d :
  sign_cell d = 1%float \/ sign_cell d = (-1)%float
  \/ (sign_cell d =? 0)%float = true \/ is_nan (sign_cell d) = true.
Proof.
  destruct (sign_cell_cases d) as (Hp & Hm & Hz & Hn).
  destruct (is_nan d) eqn:En.
  - right; right; right. now rewrite Hn.
  - destruct (0 <? d)%float eqn:E1; [left; now apply Hp|].
    destruct (d <? 0)%float eqn:E2; [right; left; now apply Hm|].
    right; right; left.
    pose proof (ltb_zero_cases d En E1 E2) as E0. now rewrite (Hz E0).
Qed.

Lemma signed_series_overflow s initial lag :
  ssize_ok (lag_steps lag) = false ->
  signed_series (VSeries s) initial lag = Raise OverflowError.
Proof.
  intros Hk. unfold signed_series, series_diff. cbn [verify_series].
  replace (if negb (is_none lag) && is_int lag then int_value lag else 1)
    with (lag_steps lag) by (destruct lag as [| [] | | | | |]; reflexivity).
  now rewrite Hk.
Qed.

(** X9. [signed_series] on something that is not a Series raises
    [AttributeError]; on an empty Series it raises [IndexError]; with a
    lag outside the platform integers it raises [OverflowError]. *)
Theorem signed_series_failures :
  (forall x initial lag,
      verify_series x VNone = None ->
      signed_series x initial lag = Raise AttributeError)
  /\ (forall s initial lag,
         size s = 0 -> ssize_ok (lag_steps lag) = true ->
         signed_series (VSeries s) initial lag = Raise IndexError)
  /\ (forall s initial lag,
         ssize_ok (lag_steps lag) = false ->
         signed_series (VSeries s) initial lag = Raise OverflowError).
Proof.
  split; [|split].
  - intros x initial lag H. unfold signed_series. now rewrite H.
  - intros s initial lag Hs Hk. rewrite signed_series_valid by exact Hk.
    assert (E : diff_cells (lag_steps lag) (values s) = []).
    { apply length_zero_iff_nil. rewrite length_diff_cells.
      unfold size in Hs. lia. }
    now rewrite E.
  - exact signed_series_overflow.
Qed.

(** X10. Whatever [signed_series] returns, every cell after the first is
    [1], [-1], a zero or undefined. *)
Theorem signed_series_range (s : Series) (initial : option num) (lag : value)
  (sign : Series) :
  signed_series (VSeries s) initial lag = Ok sign ->
  length (cells sign) = length (cells s)
  /\ forall i, (0 < i < length (cells sign))%nat ->
       let c := nth i (cells sign) nan in
       c = 1%float \/ c = (-1)%float \/ (c =? 0)%float = true \/ is_nan c = true.
Proof.
  intros H.
  destruct (ssize_ok (lag_steps lag)) eqn:Hk;
    [|rewrite signed_series_overflow in H by exact Hk; discriminate].
  rewrite signed_series_valid in H by exact Hk.
  remember (map sign_cell (diff_cells (lag_steps lag) (values s))) as l eqn:El.
  assert (Hl : length l = length (cells s)).
  { subst l. rewrite length_map, length_diff_cells. unfold cells.
    now rewrite length_floats. }
  destruct l as [|c0 t]; [discriminate|].
  cbn [iloc0_set] in H.
  destruct (cell_of (if is_str lag then None else initial)) as [c|e];
    [|discriminate].
  cbn in H. injection H as <-. cbn [cells values floats]. split.
  - exact Hl.
  - intros [|i] Hi; [lia|]. cbn [nth length] in *.
    assert (Hn : nth i t nan = nth (S i) (c0 :: t) nan) by reflexivity.
    rewrite Hn, El.
    rewrite (nth_indep _ nan (sign_cell nan))
      by (rewrite <- El; cbn [length]; lia).
    rewrite map_nth. apply sign_cell_range.
Qed.

(** A use of [signed_series_range] on the docstring example. *)
Lemma signed_series_range_witness :
  length (cells (mkSeries (F64 [nan; -1; 0; -1; 0; 1; 1; 0; 1; -1]%float)
                   None None))
  = length (cells signed_example)
  /\ forall i, (0 < i < 10)%nat ->
       let c := nth i [nan; -1; 0; -1; 0; 1; 1; 0; 1; -1]%float nan in
       c = 1%float \/ c = (-1)%float \/ (c =? 0)%float = true \/ is_nan c = true.
Proof.
  apply (signed_series_range signed_example None VNone
           (mkSeries (F64 [nan; -1; 0; -1; 0; 1; 1; 0; 1; -1]%float) None None)).
  reflexivity.
Defined.

(** ** signed_series and unsigned_differences agree *)

Lemma sign_cell_one d : sign_cell d = 1%float <-> (0 <? d)%float = true.
Proof.
  split.
  - intros H. destruct (0 <? d)%float eqn:E; [reflexivity|].
    unfold sign_cell in H. rewrite E in H.
    destruct (d <? 0)%float eqn:E2.
    + apply (f_equal (fun x => (x <? 0)%float)) in H. discriminate H.
    + subst d. discriminate E.
  - apply sign_cell_cases.
Qed.

Lemma sign_cell_minus_one d : sign_cell d = (-1)%float <-> (d <? 0)%float = true.
Proof.
  split.
  - intros H. destruct (d <? 0)%float eqn:E; [reflexivity|].
    unfold sign_cell in H.
    destruct (0 <? d)%float eqn:E2.
    + apply (f_equal (fun x => (x <? 0)%float)) in H. discriminate H.
    + rewrite E in H. subst d. discriminate E.
  - apply sign_cell_cases.
Qed.

Lemma mask_cell_one (b : bool) :
  (if b then 1%float else 0%float) = 1%float <-> b = true.
Proof.
  destruct b; split; intros H; try reflexivity; discriminate.
Qed.

(** X11. [signed_series] and [unsigned_differences] over the same number
    of steps tell the same story: after the first row, the sign is [1]
    exactly where the positive column is [1], and [-1] exactly where the
    negative column is [1]. *)
Theorem signed_unsigned_agree
  (s : Series) (initial : option num) (k : Z) (asint : bool)
  (sign positive negative : Series) :
  signed_series (VSeries s) initial (VInt k) = Ok sign ->
  unsigned_differences s (VInt k) asint = Ok (positive, negative) ->
  forall i, (0 < i < length (cells s))%nat ->
    (nth i (cells sign) nan = 1%float <-> nth i (cells positive) nan = 1%float)
    /\ (nth i (cells sign) nan = (-1)%float
        <-> nth i (cells negative) nan = 1%float).
Proof.
  intros Hs Hu i Hi.
  destruct (ssize_ok k) eqn:Hk;
    [|rewrite signed_series_overflow in Hs by exact Hk; discriminate].
  rewrite signed_series_valid in Hs by exact Hk.
  rewrite (unsigned_differences_run s (VInt k) asint k eq_refl Hk) in Hu.
  cbv zeta in Hu. injection Hu as <- <-.
  cbn [lag_steps is_str] in Hs.
  remember (diff_cells k (values s)) as d eqn:Ed.
  assert (Hd : length d = length (cells s)).
  { subst d. rewrite length_diff_cells. unfold cells. now rewrite length_floats. }
  destruct d as [|d0 t]; [cbn [length] in Hd; lia|].
  cbn [map iloc0_set] in Hs.
  destruct (cell_of initial) as [c|e]; [|discriminate].
  cbn in Hs. injection Hs as <-.
  unfold cells. cbn [values].
  rewrite !nth_mask_cells by lia.
  destruct i as [|i]; [lia|]. cbn [floats nth].
  rewrite (nth_indep _ nan (sign_cell nan))
    by (rewrite length_map; cbn [length] in Hd; lia).
  rewrite map_nth. split.
  - now rewrite sign_cell_one, mask_cell_one.
  - now rewrite sign_cell_minus_one, mask_cell_one.
Qed.

(** A use of [signed_unsigned_agree]: the docstring example at row 5. *)
Lemma signed_unsigned_agree_witness :
  (nth 5 [nan; -1; 0; -1; 0; 1; 1; 0; 1; -1]%float nan = 1%float
   <-> nth 5 (map Cell.of_Z [0; 0; 0; 0; 0; 1; 1; 0; 1; 0]) nan = 1%float)
  /\ (nth 5 [nan; -1; 0; -1; 0; 1; 1; 0; 1; -1]%float nan = (-1)%float
      <-> nth 5 (map Cell.of_Z [0; 1; 0; 1; 0; 0; 0; 0; 0; 1]) nan = 1%float).
Proof.
  apply (signed_unsigned_agree signed_example None 1 true
           (mkSeries (F64 [nan; -1; 0; -1; 0; 1; 1; 0; 1; -1]%float) None None)
           (mkSeries (I64 [0; 0; 0; 0; 0; 1; 1; 0; 1; 0]) None None)
           (mkSeries (I64 [0; 1; 0; 1; 0; 0; 0; 0; 0; 1]) None None)).
  - reflexivity.
  - reflexivity.
  - simpl. lia.
Defined.

(** ** unsigned_differences: nothing to report *)

Lemma lag_diff_still k d i :
  k = 0 \/ Z.of_nat (data_length d) <= Z.abs k ->
  (i < data_length d)%nat ->
  (0 <? lag_diff k d i)%float = false /\ (lag_diff k d i <? 0)%float = false.
Proof.
  intros [-> | Hfar] Hi.
  - unfold lag_diff. cbv zeta. rewrite Z.sub_0_r, Nat2Z.id.
    replace ((0 <=? Z.of_nat i) && (Z.of_nat i <? Z.of_nat (data_length d)))
      with true by (symmetry; apply andb_true_iff; split;
                    [apply Z.leb_le | apply Z.ltb_lt]; lia).
    destruct d as [l|l].
    + destruct (FloatArith.sub_diag (nth i l nan)) as [-> | ->];
        split; reflexivity.
    + rewrite Z.sub_diag. split; reflexivity.
  - unfold lag_diff. cbv zeta.
    replace ((0 <=? Z.of_nat i - k) && (Z.of_nat i - k <? Z.of_nat (data_length d)))
      with false
      by (symmetry; apply andb_false_iff;
          destruct (Z.leb_spec 0 (Z.of_nat i - k));
          [right; apply Z.ltb_ge; lia | now left]).
    destruct d; split; reflexivity.
Qed.

Lemma mask_cells_none asint (f : float -> bool) (d : list float) :
  (forall i, (i < length d)%nat -> f (nth i d nan) = false) ->
  floats (mask_data asint (map f d)) = repeat 0%float (length d).
Proof.
  intros H. apply (nth_ext _ _ nan nan).
  - now rewrite length_mask_cells, repeat_length.
  - intros i Hi. rewrite length_mask_cells in Hi.
    rewrite nth_mask_cells, H by exact Hi.
    now rewrite nth_repeat_lt.
Qed.

(** X12. With [amount] zero, or at least as large as the Series in either
    direction, [unsigned_differences] reports nothing: both columns are
    all zeros. *)
Theorem unsigned_differences_still
  (series : Series) (amount : value) (asint : bool) (k : Z) :
  (if negb (is_none amount) then py_int amount else Ok 1) = Ok k ->
  ssize_ok k = true ->
  k = 0 \/ size series <= Z.abs k ->
  exists positive negative,
    unsigned_differences series amount asint = Ok (positive, negative)
    /\ cells positive = repeat 0%float (length (cells series))
    /\ cells negative = repeat 0%float (length (cells series)).
Proof.
  intros Ha Hk Hstill.
  rewrite (unsigned_differences_run series amount asint k Ha Hk). cbv zeta.
  do 2 eexists. split; [reflexivity|].
  assert (Hl : length (diff_cells k (values series)) = length (cells series)).
  { rewrite length_diff_cells. unfold cells. now rewrite length_floats. }
  unfold cells at 1 3. cbn [values].
  rewrite <- Hl. split; apply mask_cells_none; intros i Hi;
    rewrite length_diff_cells in Hi; rewrite nth_diff_cells by exact Hi;
    now apply lag_diff_still.
Qed.

(** A use of [unsigned_differences_still]: differences over zero steps. *)
Lemma unsigned_differences_still_witness :
  exists positive negative,
    unsigned_differences unsigned_example (VInt 0) true = Ok (positive, negative)
    /\ cells positive = repeat 0%float 11
    /\ cells negative = repeat 0%float 11.
Proof.
  apply (unsigned_differences_still unsigned_example (VInt 0) true 0).
  - reflexivity.
  - reflexivity.
  - now left.
Defined.

Lemma cells_mask_data asint l :
  floats (mask_data asint l) = floats (mask_data false l).
Proof.
  destruct asint; [|reflexivity]. unfold mask_data, floats.
  rewrite map_map. apply map_ext. now intros [].
Qed.

(** X13. The keyword [asint] changes the type of the two columns of
    [unsigned_differences] and nothing else: whenever the function returns,
    it returns for either setting, int64 columns with [asint] and float64
    columns without it, holding the same numbers under the same name. *)
Theorem unsigned_differences_asint
  (series : Series) (amount : value) (asint : bool) (positive negative : Series) :
  unsigned_differences series amount asint = Ok (positive, negative) ->
  exists p n pf nf,
    unsigned_differences series amount true
    = Ok (mkSeries (I64 p) (name series) None, mkSeries (I64 n) (name series) None)
    /\ unsigned_differences series amount false
       = Ok (mkSeries (F64 pf) (name series) None,
             mkSeries (F64 nf) (name series) None)
    /\ map Cell.of_Z p = pf /\ map Cell.of_Z n = nf
    /\ cells positive = pf /\ cells negative = nf.
Proof.
  intros H.
  destruct (if negb (is_none amount) then py_int amount else Ok 1) as [k|e] eqn:Ha.
  2:{ unfold unsigned_differences in H. rewrite Ha in H. discriminate. }
  destruct (ssize_ok k) eqn:Hk.
  2:{ unfold unsigned_differences, series_diff in H. rewrite Ha in H.
      cbn [bind] in H. rewrite Hk in H. discriminate. }
  rewrite (unsigned_differences_run series amount asint k Ha Hk) in H.
  rewrite !(unsigned_differences_run series amount _ k Ha Hk).
  cbv zeta in *. injection H as <- <-.
  set (d := diff_cells k (values series)).
  exists (map Z.b2z (map (fun c => (0 <? c)%float) d)),
         (map Z.b2z (map (fun c => (c <? 0)%float) d)),
         (floats (mask_data false (map (fun c => (0 <? c)%float) d))),
         (floats (mask_data false (map (fun c => (c <? 0)%float) d))).
  split; [reflexivity|]. split; [reflexivity|].
  unfold cells. cbn [values]. rewrite !(cells_mask_data asint).
  repeat split; apply (cells_mask_data true).
Qed.

(** A use of [unsigned_differences_asint] on the docstring example. *)
Lemma unsigned_differences_asint_witness :
  exists p n pf nf,
    unsigned_differences unsigned_example VNone true
    = Ok (mkSeries (I64 p) None None, mkSeries (I64 n) None None)
    /\ unsigned_differences unsigned_example VNone false
       = Ok (mkSeries (F64 pf) None None, mkSeries (F64 nf) None None)
    /\ map Cell.of_Z p = pf /\ map Cell.of_Z n = nf
    /\ [0; 0; 0; 0; 0; 1; 1; 0; 1; 0; 0]%float = pf
    /\ [0; 1; 0; 1; 0; 0; 0; 0; 0; 1; 1]%float = nf.
Proof.
  apply (unsigned_differences_asint unsigned_example VNone false
           (mkSeries (F64 [0; 0; 0; 0; 0; 1; 1; 0; 1; 0; 0]%float) None None)
           (mkSeries (F64 [0; 1; 0; 1; 0; 0; 0; 0; 0; 1; 1]%float) None None)).
  reflexivity.
Defined.

(** ** recent_maximum_index, recent_minimum_index: undefined values *)

Lemma nan_leb_l a b : is_nan a = true -> (a <=? b)%float = false.
Proof.
  intros H. apply FloatOrder.is_nan_spec in H.
  rewrite leb_spec. unfold SFleb. now rewrite H.
Qed.

Lemma nan_leb_r a b : is_nan b = true -> (a <=? b)%float = false.
Proof.
  intros H. apply FloatOrder.is_nan_spec in H.
  rewrite leb_spec. unfold SFleb, SFcompare. rewrite H.
  now destruct (Prim2SF a) as [[]| [] | | [] m e].
Qed.

Section ScanNan.

Variable le : float -> float -> bool.
Hypothesis le_nan : forall y m, is_nan y = true -> le y m = false.

Lemma scan_first_nan a :
  forall y b i mp ind,
    numeric a -> is_nan y = true ->
    scan le (a ++ y :: b) i mp ind = (i + length a)%nat.
Proof.
  induction a as [|x a IH]; intros y b i mp ind Ha Hy.
  - cbn [app scan length]. rewrite (le_nan y mp Hy), Hy. cbn. lia.
  - inversion Ha as [|? ? Hx Ha']; subst.
    cbn [app scan length]. rewrite Hx.
    destruct (negb (le x mp)); rewrite IH by assumption; lia.
Qed.

End ScanNan.

Lemma argmax_first_nan a y b :
  numeric a -> is_nan y = true ->
  argmax (a ++ y :: b) = Ok (Z.of_nat (length a)).
Proof.
  intros Ha Hy. destruct a as [|x a].
  - cbn [app argmax length]. now rewrite Hy.
  - inversion Ha as [|? ? Hx Ha']; subst.
    cbn [app argmax length]. rewrite Hx, argmax_scan_eq.
    rewrite (scan_first_nan PrimFloat.leb nan_leb_l) by assumption.
    reflexivity.
Qed.

Lemma argmin_first_nan a y b :
  numeric a -> is_nan y = true ->
  argmin (a ++ y :: b) = Ok (Z.of_nat (length a)).
Proof.
  intros Ha Hy. destruct a as [|x a].
  - cbn [app argmin length]. now rewrite Hy.
  - inversion Ha as [|? ? Hx Ha']; subst.
    cbn [app argmin length]. rewrite Hx, argmin_scan_eq.
    rewrite (scan_first_nan (fun x mp => PrimFloat.leb mp x)
               (fun y m => nan_leb_r m y)) by assumption.
    reflexivity.
Qed.

(** X14. An undefined value in the window wins over every number: when the
    window holds one, both [recent_maximum_index] and
    [recent_minimum_index] return the number of values that follow the
    last undefined one, whatever the numbers are. *)
Theorem recent_index_undefined (before after : list float) (y : float) :
  is_nan y = true -> numeric after ->
  recent_maximum_index (before ++ y :: after) = Ok (Z.of_nat (length after))
  /\ recent_minimum_index (before ++ y :: after) = Ok (Z.of_nat (length after)).
Proof.
  intros Hy Ha. unfold recent_maximum_index, recent_minimum_index.
  rewrite rev_app_distr. cbn [rev]. rewrite <- app_assoc. cbn [app].
  rewrite <- (length_rev after).
  split; [apply argmax_first_nan | apply argmin_first_nan];
    auto using numeric_rev.
Qed.

(** A use of [recent_index_undefined]: the maximum 9 is at distance 0, the
    undefined value at distance 2. *)
Lemma recent_index_undefined_witness :
  recent_maximum_index [1; nan; 5; 9]%float = Ok 2
  /\ recent_minimum_index [1; nan; 5; 9]%float = Ok 2.
Proof.
  apply (recent_index_undefined [1%float] [5; 9]%float nan).
  - reflexivity.
  - repeat constructor.
Defined.

Lemma numeric_split l :
  numeric l
  \/ exists a y b, l = a ++ y :: b /\ numeric a /\ is_nan y = true.
Proof.
  induction l as [|x l IH].
  - left. constructor.
  - destruct (is_nan x) eqn:Hx.
    + right. exists [], x, l. repeat split; [constructor | exact Hx].
    + destruct IH as [Hl | (a & y & b & -> & Ha & Hy)].
      * left. now constructor.
      * right. exists (x :: a), y, b. repeat split; [now constructor | exact Hy].
Qed.

(** X15. On an empty window both functions raise [ValueError]; on any other
    window, undefined values or not, both return a position counted from
    the end: a number from 0 to the length of the window minus one. *)
Theorem recent_index_bounds (x : list float) :
  (x = [] ->
   recent_maximum_index x = Raise ValueError
   /\ recent_minimum_index x = Raise ValueError)
  /\ (x <> [] ->
      exists kmax kmin,
        recent_maximum_index x = Ok kmax /\ recent_minimum_index x = Ok kmin
        /\ 0 <= kmax < Z.of_nat (length x) /\ 0 <= kmin < Z.of_nat (length x)).
Proof.
  split; [intros ->; split; reflexivity|]. intros Hx.
  assert (Hw : rev x <> []).
  { intros E. apply (f_equal (@rev float)) in E.
    rewrite rev_involutive in E. exact (Hx E). }
  unfold recent_maximum_index, recent_minimum_index.
  rewrite <- (length_rev x).
  destruct (numeric_split (rev x)) as [Hn | (a & y & b & E & Ha & Hy)].
  - destruct (argmax_first_best (rev x) Hw Hn) as (r & Hr & Hb & _).
    destruct (argmin_first_best (rev x) Hw Hn) as (r' & Hr' & Hb' & _).
    exists (Z.of_nat r), (Z.of_nat r'). repeat split; try assumption; lia.
  - rewrite E, (argmax_first_nan a y b Ha Hy), (argmin_first_nan a y b Ha Hy).
    exists (Z.of_nat (length a)), (Z.of_nat (length a)).
    rewrite length_app. cbn [length]. repeat split; lia.
Qed.

(** ** get_drift, get_offset, verify_series *)

(** X16. [get_drift] never returns zero; it returns what [get_offset]
    returns unless that is zero, and 1 then. *)
Theorem get_drift_nonzero (x : value) :
  get_drift x <> 0
  /\ (get_offset x <> 0 -> get_drift x = get_offset x)
  /\ (get_offset x = 0 -> get_drift x = 1).
Proof.
  unfold get_drift, get_offset.
  destruct (is_int x); cbn [andb].
  - destruct (Z.eqb_spec (int_value x) 0) as [E|E]; cbn [negb];
      repeat split; intros; congruence || lia.
  - repeat split; intros; congruence || lia.
Qed.

(** X17. [verify_series] ignores a [min_length] that is not an [int]
    (a float, a string, ...), and a Series accepted for one minimum
    length is accepted, unchanged, for every smaller one. *)
Theorem verify_series_min_length :
  (forall x m, is_int m = false -> verify_series x m = verify_series x VNone)
  /\ (forall x n m s,
         m <= n -> verify_series x (VInt n) = Some s ->
         verify_series x (VInt m) = Some s)
  /\ (forall x m s, verify_series x m = Some s -> verify_series x VNone = Some s).
Proof.
  split; [|split].
  - intros x m Hm. unfold verify_series. rewrite Hm.
    now rewrite andb_false_r.
  - intros x n m s Hmn. unfold verify_series. destruct x; try discriminate.
    cbn [is_none is_int negb andb int_value].
    destruct (Z.ltb_spec (size s0) n); [discriminate|].
    intros [= ->]. destruct (Z.ltb_spec (size s) m); [lia | reflexivity].
  - intros x m s. unfold verify_series. destruct x; try discriminate.
    destruct (_ && _); [discriminate|]. now intros [= ->].
Qed.

(** ** performance: the timing table and what is returned *)

Section PerformanceReport.

Variable ta_indicators : list string -> list string.
Variable timed_ms : string -> bool -> result float.
Variable describe : list float -> float * float * float * float.
Variable col_sum : list float -> float.
Variable sort_values : string -> bool -> list row -> result (list row).

(** X18. When [indicator_time] returns, the table has one row per
    indicator of the group, in the order of the group; the row's [ms] is
    what the timed run of that indicator reported and its [secs] is that
    number rounded by [ms2secs]. *)
Theorem indicator_time_rows (talib : bool) (group : list string) (p : value)
  (data : list row) :
  indicator_time timed_ms talib group p = Ok data ->
  map Indicator data = group
  /\ Forall (fun r => timed_ms (Indicator r) talib = Ok (ms r)
                      /\ ms2secs (ms r) p = Ok (secs r)) data.
Proof.
  revert data. induction group as [|i group IH]; intros data H.
  - injection H as <-. split; constructor.
  - cbn [indicator_time] in H.
    destruct (timed_ms i talib) as [m|e] eqn:Em; [|discriminate].
    cbn [bind] in H.
    destruct (ms2secs m p) as [s|e] eqn:Es; [|discriminate].
    cbn [bind] in H.
    destruct (indicator_time timed_ms talib group p) as [times|e];
      [|discriminate].
    cbn [bind] in H. injection H as <-.
    destruct (IH times eq_refl) as [Hn Hr].
    split; [cbn; now rewrite Hn|].
    constructor; [cbn; now split | exact Hr].
Qed.

Lemma indicator_time_raises (talib : bool) (group : list string) (p : value)
  (i : string) (e : exn) :
  In i group -> timed_ms i talib = Raise e ->
  exists e', indicator_time timed_ms talib group p = Raise e'.
Proof.
  intros Hi He. induction group as [|j group IH]; [destruct Hi|].
  cbn [indicator_time].
  destruct (timed_ms j talib) as [m|e1] eqn:Em; [|now exists e1].
  cbn [bind].
  destruct (ms2secs m p) as [s|e2]; [|now exists e2].
  cbn [bind].
  destruct Hi as [-> | Hi]; [congruence|].
  destruct (IH Hi) as [e' ->]. now exists e'.
Qed.

(** X19. [performance] returns [None] exactly when the DataFrame is empty
    or no indicator is left after the exclusions. *)
Theorem performance_none_iff
  (df_empty : bool) (excluded : option (list string)) (top talib : value)
  (ascending : bool) (sortby : string) (gradient places stats : value) :
  performance ta_indicators timed_ms describe col_sum sort_values
    df_empty excluded top talib ascending sortby gradient places stats
  = Ok RNone
  <-> df_empty = true \/ ta_indicators (exclusions excluded) = [].
Proof.
  unfold performance. destruct df_empty.
  - split; [now left | reflexivity].
  - destruct (ta_indicators (exclusions excluded)) as [|i l].
    + split; [now right | reflexivity].
    + cbn [length Nat.eqb]. split.
      * intros H.
        destruct (indicator_time timed_ms (true_flag talib) (i :: l) places)
          as [data|]; [|discriminate].
        cbn [bind] in H.
        destruct (sort_values sortby ascending data); [|discriminate].
        cbn [bind] in H.
        destruct (true_flag gradient); [discriminate|].
        destruct (true_flag stats); discriminate.
      * intros [H | H]; discriminate.
Qed.

(** X20. The shape of what [performance] returns on a DataFrame with rows
    and indicators follows the flags: the styled table with the summary
    when [gradient] is the bool [True], else the table with the summary
    when [stats] is the bool [True], else the table alone; a flag given
    as anything but a bool counts as off.  With a positive integer [top]
    the table never has more than [top] rows. *)
Theorem performance_report_kind
  (excluded : option (list string)) (top talib : value)
  (ascending : bool) (sortby : string) (gradient places stats : value)
  (r : report) :
  ta_indicators (exclusions excluded) <> [] ->
  performance ta_indicators timed_ms describe col_sum sort_values
    false excluded top talib ascending sortby gradient places stats = Ok r ->
  (exists tdf,
      report_table r = Some tdf
      /\ forall n, get_top top = Some n -> Z.of_nat (length tdf) <= n)
  /\ (true_flag gradient = true ->
      exists tdf total_timedf, r = RStyled tdf total_timedf)
  /\ (true_flag gradient = false -> true_flag stats = true ->
      exists tdf total_timedf, r = RTableStats tdf total_timedf)
  /\ (true_flag gradient = false -> true_flag stats = false ->
      exists tdf, r = RTable tdf)
  /\ ((forall b, gradient <> VBool b) -> (forall b, stats <> VBool b) ->
      exists tdf, r = RTable tdf).
Proof.
  intros Hne H. unfold performance in H.
  destruct (ta_indicators (exclusions excluded)) as [|i l]; [congruence|].
  cbn [length Nat.eqb] in H.
  destruct (indicator_time timed_ms (true_flag talib) (i :: l) places)
    as [data|]; [|discriminate].
  cbn [bind] in H.
  destruct (sort_values sortby ascending data) as [tdf|]; [|discriminate].
  cbn [bind] in H.
  assert (Htop : forall n, get_top top = Some n ->
            Z.of_nat (length (match get_top top with
                              | Some top => firstn (Z.to_nat top) tdf
                              | None => tdf
                              end)) <= n).
  { intros n Hn. rewrite Hn. unfold get_top in Hn.
    destruct (is_int top && (0 <? int_value top)) eqn:E; [|discriminate].
    injection Hn as <-. apply andb_true_iff in E as [_ E].
    apply Z.ltb_lt in E. rewrite length_firstn. lia. }
  assert (Hg : (forall b, gradient <> VBool b) -> true_flag gradient = false)
    by (destruct gradient as [|b| | | | |]; cbn; try reflexivity;
        intros Hb; now destruct (Hb b)).
  assert (Hs : (forall b, stats <> VBool b) -> true_flag stats = false)
    by (destruct stats as [|b| | | | |]; cbn; try reflexivity;
        intros Hb; now destruct (Hb b)).
  destruct (true_flag gradient) eqn:Eg; [|destruct (true_flag stats) eqn:Es];
    injection H as <-; cbn [report_table];
    (split; [eexists; split; [reflexivity | exact Htop]|]);
    (split; [intros; try discriminate; eauto|]);
    (split; [intros; try discriminate; eauto|]);
    (split; [intros; try discriminate; eauto|]);
    intros Hbg Hbs; specialize (Hg Hbg); specialize (Hs Hbs);
    try discriminate; eauto.
Qed.

(** X21. [performance] does not skip an indicator that fails: when the
    timed run of one of the indicators raises, so does [performance]. *)
Theorem performance_failure
  (excluded : option (list string)) (top talib : value)
  (ascending : bool) (sortby : string) (gradient places stats : value)
  (i : string) (e : exn) :
  In i (ta_indicators (exclusions excluded)) ->
  timed_ms i (true_flag talib) = Raise e ->
  exists e',
    performance ta_indicators timed_ms describe col_sum sort_values
      false excluded top talib ascending sortby gradient places stats
    = Raise e'.
Proof.
  intros Hi He. unfold performance.
  destruct (ta_indicators (exclusions excluded)) as [|j l] eqn:E;
    [destruct Hi|].
  cbn [length Nat.eqb].
  destruct (indicator_time_raises (true_flag talib) (j :: l) places i e Hi He)
    as [e' ->].
  now exists e'.
Qed.

End PerformanceReport.

(** A use of [indicator_time_rows] on the small dataset. *)
Lemma indicator_time_rows_witness :
  map Indicator [mkRow "ema" 0.001 1; mkRow "rsi" 0.002 2; mkRow "sma" 0.003 3]
  = ["ema"; "rsi"; "sma"]%string
  /\ Forall (fun r => Bench.timed_ms (Indicator r) false = Ok (ms r)
                      /\ ms2secs (ms r) (VInt 5) = Ok (secs r))
       [mkRow "ema" 0.001 1; mkRow "rsi" 0.002 2; mkRow "sma" 0.003 3].
Proof.
  apply (indicator_time_rows Bench.timed_ms false ["ema"; "rsi"; "sma"]%string
           (VInt 5)).
  vm_compute. reflexivity.
Defined.

(** A use of [performance_report_kind]: [stats=True] with [top=2]. *)
Lemma performance_report_kind_witness :
  (exists tdf,
      report_table (RTableStats
                      [mkRow "sma" 0.003 3; mkRow "rsi" 0.002 2]
                      (Bench.time_stats
                         [mkRow "sma" 0.003 3; mkRow "rsi" 0.002 2;
                          mkRow "ema" 0.001 1])) = Some tdf
      /\ forall n, get_top (VInt 2) = Some n -> Z.of_nat (length tdf) <= n)
  /\ Bench.run (VInt 2) (VInt 5)
     = Ok (RTableStats
             [mkRow "sma" 0.003 3; mkRow "rsi" 0.002 2]
             (Bench.time_stats
                [mkRow "sma" 0.003 3; mkRow "rsi" 0.002 2; mkRow "ema" 0.001 1])).
Proof.
  assert (H : Bench.run (VInt 2) (VInt 5)
     = Ok (RTableStats
             [mkRow "sma" 0.003 3; mkRow "rsi" 0.002 2]
             (Bench.time_stats
                [mkRow "sma" 0.003 3; mkRow "rsi" 0.002 2; mkRow "ema" 0.001 1])))
    by (vm_compute; reflexivity).
  split; [|exact H].
  apply (performance_report_kind Bench.ta_indicators Bench.timed_ms
           Bench.describe Bench.col_sum Bench.sort_values None (VInt 2)
           (VBool false) false "secs"%string (VBool false) (VInt 5) (VBool true)).
  - discriminate.
  - exact H.
Defined.

(** A use of [performance_failure]: a DataFrame too short for its
    indicators. *)
Lemma performance_failure_witness :
  exists e',
    performance Bench.ta_indicators ShortFrame.timed_ms Bench.describe
      Bench.col_sum Bench.sort_values false None VNone (VBool false) false
      "secs"%string (VBool false) (VInt 5) (VBool false)
    = Raise e'.
Proof.
  apply (performance_failure Bench.ta_indicators ShortFrame.timed_ms
           Bench.describe Bench.col_sum Bench.sort_values None VNone
           (VBool false) false "secs"%string (VBool false) (VInt 5)
           (VBool false) "rsi"%string AttributeError).
  - vm_compute. tauto.
  - reflexivity.
Defined.
